(** * Academic Genealogy Explorer: the search and traversal core of [app.py]

    A shallow embedding of the functions of [app.py] that carry the
    genealogy logic ([normalize_search_text], [get_person_affiliations],
    [get_descendants_count] and the [/search] route), followed by the
    properties established about them.

    Conventions of the embedding.
    - A Python [str] is a list of Unicode code points ([str]); the empty
      string is the only falsy one.
    - The four SQLite tables are lists of rows kept in insertion (rowid)
      order.  [init_database] writes stripped Python strings in every TEXT
      column, so a column is a [str] and never NULL.
    - A [SELECT] without [ORDER BY] yields its rows in table order, a join
      iterates its first table in the outer loop, and [DISTINCT] keeps the
      first occurrence of every row.  SQLite leaves these orders open; this
      is the order of its nested-loop plans.
    - The [visited] set of the traversal is one Python object shared by all
      recursive calls: it is threaded through them as state.
    - A function that can raise returns an [option], and [None] is the
      exception.  Two exceptions are followed: the [RecursionError] of the
      interpreter when the nested calls of [get_descendants_count]
      outnumber the frames it allows, and the [sqlite3.OperationalError]
      of a statement that SQLite refuses or whose [LIKE] pattern is too
      long.  The terms of an [AND] are evaluated from left to right, and
      a row is left at the first term that is false.
    - The text of a request and of the CSV file is decoded from UTF-8: a
      [str] holds Unicode scalar values, U+0000 included. *)

From Stdlib Require Import NArith String Ascii.
From stdpp Require Import base decidable option list sets gmap sorting.

Set Warnings "-clear-no-such-hyp".

Local Open Scope N_scope.
Local Open Scope nat_scope.

(** ** Strings *)

Abbreviation cp := N (only parsing).
Abbreviation str := (list N) (only parsing).

(** An ASCII literal as a [str]. *)
Definition u (s : string) : str :=
  (λ a, N_of_ascii a) <$> list_ascii_of_string s.

(** Python truthiness of a string. *)
Definition truthy (s : str) : bool :=
  match s with [] => false | _ :: _ => true end.

(** ** The Unicode data behind [unicodedata] and the [str] methods

    [app.py] calls [unicodedata.normalize('NFD', _)], [unicodedata.category],
    [str.lower], [str.strip] and [str.split].  Their tables belong to the
    Python runtime, not to the program: they are a parameter of the
    embedding.  The algorithms on top of the tables (canonical
    decomposition followed by canonical reordering, trimming, splitting)
    are written out. *)

Class UnicodeData := {
  (** full canonical decomposition of a code point, [[c]] when it has none *)
  decomposition : N → list N;
  (** [unicodedata.combining]: the canonical combining class *)
  combining : N → nat;
  (** [unicodedata.category(c) == 'Mn'] *)
  category_Mn : N → bool;
  (** [str.lower] *)
  str_lower : list N → list N;
  (** [str.isspace] on one character *)
  isspace : N → bool
}.

Section Text.
Context {ucd : UnicodeData}.

(** Canonical reordering: a character moves to the right past the
    characters of a smaller non-zero combining class. *)
Fixpoint reorder_insert (c : cp) (s : str) : str :=
  match s with
  | [] => [c]
  | d :: s' =>
      if decide (0 < combining d ∧ combining d < combining c)
      then d :: reorder_insert c s'
      else c :: s
  end.

Definition canonical_order (s : str) : str := foldr reorder_insert [] s.

(** [unicodedata.normalize('NFD', text)] *)
Definition normalize_NFD (text : str) : str :=
  canonical_order (text ≫= decomposition).

(** [str.lstrip], [str.rstrip] and [str.strip] without argument. *)
Fixpoint lstrip (s : str) : str :=
  match s with
  | [] => []
  | c :: s' => if isspace c then lstrip s' else s
  end.

Definition rstrip (s : str) : str := reverse (lstrip (reverse s)).

Definition strip (s : str) : str := rstrip (lstrip s).

(** [str.split] without argument: the maximal runs of characters that are
    not white space.  [word] is the run being read. *)
Fixpoint split_from (word s : str) : list str :=
  match s with
  | [] => if truthy word then [word] else []
  | c :: s' =>
      if isspace c
      then (if truthy word then word :: split_from [] s' else split_from [] s')
      else split_from (word ++ [c]) s'
  end.

Definition split (s : str) : list str := split_from [] s.

(** [normalize_search_text(text)] *)
Definition normalize_search_text (text : str) : str :=
  if truthy text then
    let nfd := normalize_NFD text in
    let without_diacritics := filter (λ char, category_Mn char = false) nfd in
    strip (str_lower without_diacritics)
  else [].

End Text.

(** ** The relational store (tables created by [init_database]) *)

Record Person := mkPerson {
  person_id : str;
  name : str;
  years : str;
  name_normalized : str
}.

Record Dissertation := mkDissertation {
  dissertation_id : str;
  author_id : str;
  author_name : str;
  title : str;
  year : str;
  school : str;
  school_id : str;
  department : str;
  subject_broad : str
}.

Record Advisor := mkAdvisor {
  adv_dissertation_id : str;
  advisor_id : str;
  advisor_name : str;
  advisor_role : str;
  advisor_number : nat
}.

Record School := mkSchool {
  sch_school_id : str;
  school_name : str;
  school_name_normalized : str
}.

Record Store := mkStore {
  people : list Person;
  dissertations : list Dissertation;
  advisors : list Advisor;
  schools : list School
}.

#[global] Instance Person_eq_dec : EqDecision Person.
Proof. solve_decision. Defined.
#[global] Instance Dissertation_eq_dec : EqDecision Dissertation.
Proof. solve_decision. Defined.
#[global] Instance Advisor_eq_dec : EqDecision Advisor.
Proof. solve_decision. Defined.
#[global] Instance School_eq_dec : EqDecision School.
Proof. solve_decision. Defined.

(** ** SQL helpers *)

(** [SELECT DISTINCT]: the first occurrence of every row, in order. *)
Fixpoint distinct_from `{EqDecision A} (seen l : list A) : list A :=
  match l with
  | [] => []
  | x :: l' =>
      if decide (x ∈ seen) then distinct_from seen l'
      else x :: distinct_from (x :: seen) l'
  end.

Definition distinct `{EqDecision A} (l : list A) : list A :=
  distinct_from [] l.

(** [FROM advisors a JOIN dissertations d
     ON a.dissertation_id = d.dissertation_id WHERE a.advisor_id = ?] *)
Definition advised_dissertations (db : Store) (pid : str) : list Dissertation :=
  a ← filter (λ a, advisor_id a = pid) (advisors db);
  filter (λ d, dissertation_id d = adv_dissertation_id a) (dissertations db).

(** SQLite's [LIKE]: [%] (37) matches any run of characters, [_] (95)
    exactly one, and any other character itself, the letters A-Z and a-z
    without regard to case.  No [ESCAPE] character is declared. *)
Definition ascii_fold (c : cp) : cp :=
  if ((65 <=? c) && (c <=? 90))%N then (c + 32)%N else c.

Fixpoint any_suffix (f : str → bool) (s : str) : bool :=
  f s || match s with [] => false | _ :: s' => any_suffix f s' end.

(** [patternCompare] of SQLite, on the characters of both operands. *)
Fixpoint pattern_compare (pattern s : str) : bool :=
  match pattern with
  | [] => negb (truthy s)
  | p :: pattern' =>
      if (p =? 37)%N then any_suffix (pattern_compare pattern') s
      else
        match s with
        | [] => false
        | c :: s' =>
            ((p =? 95)%N || (ascii_fold p =? ascii_fold c)%N)
            && pattern_compare pattern' s'
        end
  end.

(** SQLite reads the two operands of [LIKE] as C strings: each one ends
    before its first U+0000, whatever follows in the Python [str]. *)
Fixpoint c_string (s : str) : str :=
  match s with
  | [] => []
  | c :: s' => if (c =? 0)%N then [] else c :: c_string s'
  end.

(** [s LIKE pattern] *)
Definition like (pattern s : str) : bool :=
  pattern_compare (c_string pattern) (c_string s).

(** The length in bytes of the UTF-8 text that the [sqlite3] module binds
    for a [str]. *)
Definition utf8_bytes (c : cp) : N :=
  if (c <? 0x80)%N then 1%N
  else if (c <? 0x800)%N then 2%N
  else if (c <? 0x10000)%N then 3%N
  else 4%N.

Definition utf8_length (s : str) : N := foldr (λ c n, (utf8_bytes c + n)%N) 0%N s.

(** A statement either yields its rows or raises
    [sqlite3.OperationalError]: [None] is the exception.  The rows are
    read in table order and the exception of a row is that of the
    statement. *)
Fixpoint select_where {A} (cond : A → option bool) (rows : list A) : option (list A) :=
  match rows with
  | [] => Some []
  | r :: rest =>
      match cond r with
      | None => None
      | Some b =>
          match select_where cond rest with
          | None => None
          | Some selected => Some (if b then r :: selected else selected)
          end
      end
  end.

(** The same under [LIMIT 1]: the scan stops at the first row that is
    selected, and the rows after it are not looked at. *)
Fixpoint first_where {A} (cond : A → option bool) (rows : list A) : option (option A) :=
  match rows with
  | [] => Some None
  | r :: rest =>
      match cond r with
      | None => None
      | Some true => Some (Some r)
      | Some false => first_where cond rest
      end
  end.

(** The parameter [f'%{part}%'] *)
Definition contains_pattern (part : str) : str := [37%N] ++ part ++ [37%N].

(** [ORDER BY name] under the BINARY collation and Python's [<] on [str]:
    both compare code point by code point. *)
Fixpoint str_leb (a b : str) : bool :=
  match a, b with
  | [], _ => true
  | _ :: _, [] => false
  | x :: a', y :: b' => (x <? y)%N || ((x =? y)%N && str_leb a' b')
  end.

Definition str_le (a b : str) : Prop := str_leb a b = true.

#[global] Instance str_le_dec a b : Decision (str_le a b).
Proof. unfold str_le. apply _. Defined.

(** ** Store access

    Every function opens its own connection, runs its statements and closes
    the connection.  These steps are recorded in order next to the value
    the function returns. *)

Inductive event := Connect | Execute | Close.

Definition IO (A : Type) : Type := list event * A.

#[global] Instance IO_ret : MRet IO := λ A x, ([], x).
#[global] Instance IO_bind : MBind IO :=
  λ A B f m, (m.1 ++ (f m.2).1, (f m.2).2).

(** [sqlite3.connect(DB_PATH)] *)
Definition connect : IO () := ([Connect], ()).
(** [c.execute(...)] followed by [fetchall] or [fetchone] *)
Definition execute {A} (rows : A) : IO A := ([Execute], rows).
(** [conn.close()] *)
Definition close : IO () := ([Close], ()).

(** ** [get_person_affiliations] *)

Record Affiliation := mkAffiliation {
  aff_school : str;
  student : bool;
  faculty : bool;
  aff_year : option (list N)
}.

#[global] Instance Affiliation_eq_dec : EqDecision Affiliation.
Proof. solve_decision. Defined.

(** The dict [affiliations]: a Python dict keeps its keys in insertion
    order and [list(affiliations.values())] reads them in that order. *)
Fixpoint dict_get {V} (key : str) (d : list (list N * V)) : option V :=
  match d with
  | [] => None
  | (k, v) :: d' => if decide (k = key) then Some v else dict_get key d'
  end.

(** [d[key] = v] for a key that is not in [d] *)
Definition dict_add {V} (key : str) (v : V) (d : list (list N * V)) : list (list N * V) :=
  d ++ [(key, v)].

(** [d[key][...] = ...]: the value under [key] changed in place *)
Definition dict_update {V} (f : V → V) (key : str) (d : list (list N * V)) : list (list N * V) :=
  (λ kv, if decide (kv.1 = key) then (kv.1, f kv.2) else kv) <$> d.

(** [key = school_id if school_id else school] *)
Definition school_key (school school_id : str) : str :=
  if truthy school_id then school_id else school.

(** [SELECT DISTINCT school, school_id, year FROM dissertations
     WHERE author_id = ?] *)
Definition student_rows (db : Store) (pid : str) : list (list N * list N * list N) :=
  distinct ((λ d, (school d, school_id d, year d)) <$>
            filter (λ d, author_id d = pid) (dissertations db)).

(** [SELECT DISTINCT d.school, d.school_id FROM advisors a JOIN
     dissertations d ON ... WHERE a.advisor_id = ?] *)
Definition faculty_rows (db : Store) (pid : str) : list (list N * list N) :=
  distinct ((λ d, (school d, school_id d)) <$> advised_dissertations db pid).

(** Body of the first loop ("where they were a student") *)
Definition add_student (affiliations : list (list N * Affiliation))
    (row : list N * list N * list N) : list (list N * Affiliation) :=
  let '(school, school_id, year) := row in
  if truthy school then
    let key := school_key school school_id in
    match dict_get key affiliations with
    | None => dict_add key (mkAffiliation school true false (Some year)) affiliations
    | Some _ => affiliations
    end
  else affiliations.

(** [affiliations[key]['faculty'] = True] *)
Definition set_faculty (a : Affiliation) : Affiliation :=
  mkAffiliation (aff_school a) (student a) true (aff_year a).

(** Body of the second loop ("where they were faculty") *)
Definition add_faculty (affiliations : list (list N * Affiliation))
    (row : list N * list N) : list (list N * Affiliation) :=
  let '(school, school_id) := row in
  if truthy school then
    let key := school_key school school_id in
    match dict_get key affiliations with
    | None => dict_add key (mkAffiliation school false true None) affiliations
    | Some _ => dict_update set_faculty key affiliations
    end
  else affiliations.

(** The dict after the first loop and after both loops. *)
Definition student_affiliations (db : Store) (pid : str) : list (list N * Affiliation) :=
  foldl add_student [] (student_rows db pid).

Definition affiliations_dict (db : Store) (pid : str) : list (list N * Affiliation) :=
  foldl add_faculty (student_affiliations db pid) (faculty_rows db pid).

Definition get_person_affiliations (db : Store) (person_id : str) : IO (list Affiliation) :=
  connect;;
  rows ← execute (student_rows db person_id);
  let affiliations := foldl add_student [] rows in
  rows ← execute (faculty_rows db person_id);
  let affiliations := foldl add_faculty affiliations rows in
  close;;
  mret (affiliations.*2).

(** The value [get_person_affiliations] returns. *)
Definition affiliationsOf (db : Store) (person_id : str) : list Affiliation :=
  (get_person_affiliations db person_id).2.

(** ** [get_descendants_count] *)

(** The query of [get_descendants_count] and the comprehension
    [[row[0] for row in c.fetchall() if row[0]]]. *)
Definition direct_students (db : Store) (pid : str) : list str :=
  filter (λ s, truthy s = true) (distinct (author_id <$> advised_dissertations db pid)).

(** The [for student_id in students] loop, over a recursive call [rec]
    that receives and returns the shared [visited] set. *)
Fixpoint students_loop (rec : str → gset str → option (nat * nat * gset str))
    (students : list str) (total_descendants max_depth : nat)
    (visited : gset str) : option (nat * nat * gset str) :=
  match students with
  | [] => Some (total_descendants, max_depth, visited)
  | student_id :: rest =>
      match rec student_id visited with
      | None => None
      | Some (descendant_count, depth, visited') =>
          students_loop rec rest (total_descendants + descendant_count)
            (max_depth `max` (depth + 1)) visited'
      end
  end.

(** [get_descendants_count(person_id, visited)].  Every call of the source
    takes a frame of the interpreter, which raises [RecursionError] when
    the frames it allows are used up: [fuel] is the number of nested calls
    still allowed, and [None] is the [RecursionError], which nothing
    catches.  The result carries the [visited] set as the call leaves
    it. *)
Fixpoint get_descendants_count (fuel : nat) (db : Store) (person_id : str)
    (visited : gset str) : option (nat * nat * gset str) :=
  match fuel with
  | 0 => None
  | S fuel' =>
      if decide (person_id ∈ visited) then Some (0, 0, visited)
      else
        let visited := {[person_id]} ∪ visited in
        let students := direct_students db person_id in
        match students with
        | [] => Some (0, 0, visited)
        | _ :: _ =>
            students_loop (get_descendants_count fuel' db) students
              (length students) 1 visited
        end
  end.

(** Call depth that is always enough: the people on the call stack below
    the root are distinct authors of dissertations. *)
Definition enough_fuel (db : Store) : nat := length (dissertations db) + 2.

(** The call [get_descendants_count(person_id)] of [person_detail], with
    [visited=None], when the interpreter allows [frames] nested calls of
    the function ([sys.getrecursionlimit()], which is 1000 and which
    [app.py] never raises, less the frames of the caller): the pair
    [(total_descendants, max_generations)], or [None] for the
    [RecursionError]. *)
Definition descendantStats_within (frames : nat) (db : Store) (person_id : str)
    : option (nat * nat) :=
  (λ r, (r.1.1, r.1.2)) <$> get_descendants_count frames db person_id ∅.

(** The same call when the recursion limit is out of the way: with
    [enough_fuel db] frames, which every larger number agrees with. *)
Definition descendantStats (db : Store) (person_id : str) : option (nat * nat) :=
  (λ r, (r.1.1, r.1.2)) <$> get_descendants_count (enough_fuel db) db person_id ∅.


(** ** The [/search] route *)

Record PersonResult := mkResult {
  res_person_id : str;
  res_name : str;
  res_years : str;
  res_affiliations : list Affiliation
}.

#[global] Instance PersonResult_eq_dec : EqDecision PersonResult.
Proof. solve_decision. Defined.

(** What [search] hands to [render_template('search.html', ...)]. *)
Inductive Response :=
| render_error (error : str)
| render_results (results : list PersonResult) (name_query school_query : str)
(** an exception left the view: Flask answers with status 500 *)
| internal_server_error.

#[global] Instance Response_eq_dec : EqDecision Response.
Proof. solve_decision. Defined.

(** SQLite refuses a statement that exceeds one of its limits (depth of
    the expression tree, number of bound variables); the limits are chosen
    when the library is built.  [statement_refused parts] tells whether the
    statement with one [LIKE] clause per part raises when it is prepared.
    [like_pattern_length] is [SQLITE_MAX_LIKE_PATTERN_LENGTH], 50000 bytes
    unless the build says otherwise: a longer pattern makes [LIKE] raise
    "LIKE or GLOB pattern too complex" on the first row it is evaluated
    on. *)
Class SqliteLimits := {
  statement_refused : list (list N) → bool;
  like_pattern_length : N
}.

(** Python iterates a [set] of [str] in an order that depends on the
    hashes of the process: some order in which every element comes once. *)
Class SetOrder := {
  iterate : gset (list N) → list (list N);
  iterate_elements : ∀ X, iterate X ≡ₚ elements X
}.

Definition please_enter : str := u "Please enter a name or university".
Definition university_not_found : str := u "University not found".

Section Search.
Context {ucd : UnicodeData} {limits : SqliteLimits} {order : SetOrder}.

(** One pass of [for person_id, name, years in c.fetchall()] *)
Definition result_row (db : Store) (row : Person) : IO PersonResult :=
  affiliations ← get_person_affiliations db (person_id row);
  mret (mkResult (person_id row) (name row) (years row) affiliations).

(** One evaluation of [text LIKE pattern] ([likeFunc] of SQLite): the
    length of the whole pattern is checked first, whatever the text. *)
Definition likeFunc (pattern text : str) : option bool :=
  if decide (like_pattern_length < utf8_length pattern)%N then None
  else Some (like pattern text).

(** [WHERE t LIKE ? AND t LIKE ? AND ...] on one row: the terms are
    evaluated from left to right, up to the first one that is false. *)
Fixpoint where_all (patterns : list str) (text : str) : option bool :=
  match patterns with
  | [] => Some true
  | pattern :: rest =>
      match likeFunc pattern text with
      | None => None
      | Some true => where_all rest text
      | Some false => Some false
      end
  end.

(** [SELECT person_id, name, years FROM people
     WHERE name_normalized LIKE ? AND ... ORDER BY name] *)
Definition people_like (db : Store) (patterns : list str) : option (list Person) :=
  merge_sort (λ p q, str_le (name p) (name q)) <$>
    select_where (λ p, where_all patterns (name_normalized p)) (people db).

(** [[part.strip() for part in name_normalized.split() if part.strip()]] *)
Definition name_parts_of (name_normalized : str) : list str :=
  strip <$> filter (λ part, truthy (strip part) = true) (split name_normalized).

(** The branch [if name_query:].  The statement of the [try] block raises
    when SQLite refuses it or when one of its patterns is too long; the
    statement of the [except] block is not guarded, and [None] is its
    exception leaving [search]. *)
Definition searchByName (db : Store) (name_query : str)
    : IO (option (list PersonResult)) :=
  let name_normalized := normalize_search_text name_query in
  let name_parts := name_parts_of name_normalized in
  if decide (name_parts = []) then mret (Some [])
  else
    rows ← execute (if statement_refused name_parts then None
                    else people_like db (contains_pattern <$> name_parts));
    match rows with
    | Some rows =>
        results ← mapM (result_row db) rows;
        mret (Some results)
    | None =>
        (* except Exception: the single-pattern search *)
        rows ← execute (people_like db [contains_pattern name_normalized]);
        match rows with
        | Some rows =>
            results ← mapM (result_row db) rows;
            mret (Some results)
        | None => mret None
        end
    end.

(** [SELECT school_id, school_name FROM schools
     WHERE school_name_normalized LIKE ? LIMIT 1] with [fetchone]: [None]
    when the statement raises, [Some None] when no row is selected. *)
Definition find_school (db : Store) (school_normalized : str) : option (option School) :=
  first_where (λ s, likeFunc (contains_pattern school_normalized)
                      (school_name_normalized s)) (schools db).

(** [WHERE school_id = ? OR school = ?] *)
Definition at_school (s : School) (d : Dissertation) : Prop :=
  school_id d = sch_school_id s ∨ school d = school_name s.

#[global] Instance at_school_dec s d : Decision (at_school s d).
Proof. unfold at_school. apply _. Defined.

(** [SELECT DISTINCT author_id FROM dissertations WHERE ...] *)
Definition school_authors (db : Store) (s : School) : list str :=
  distinct (author_id <$> filter (at_school s) (dissertations db)).

(** [SELECT DISTINCT a.advisor_id FROM advisors a JOIN dissertations d
     ON a.dissertation_id = d.dissertation_id WHERE ...] *)
Definition school_advisors (db : Store) (s : School) : list str :=
  distinct (a ← advisors db;
            (λ _, advisor_id a) <$>
              filter (λ d, dissertation_id d = adv_dissertation_id a ∧ at_school s d)
                (dissertations db)).

(** The set [people_ids] after the two loops that add the truthy ids. *)
Definition people_ids_of (authors advisors : list str) : gset (list N) :=
  list_to_set (filter (λ i, truthy i = true) authors) ∪
  list_to_set (filter (λ i, truthy i = true) advisors).

(** One pass of [for person_id in people_ids]: the person is looked up
    and skipped when the [people] table has no such row. *)
Definition person_row (db : Store) (pid : str) : IO (list PersonResult) :=
  person_row ← execute (head (filter (λ p, person_id p = pid) (people db)));
  match person_row with
  | Some p =>
      affiliations ← get_person_affiliations db pid;
      mret [mkResult pid (name p) (years p) affiliations]
  | None => mret []
  end.

(** The branch [elif school_query:].  [None] is the exception of the first
    statement leaving [search], [Some None] the early return with
    "University not found". *)
Definition searchBySchool (db : Store) (school_query : str)
    : IO (option (option (list PersonResult))) :=
  let school_normalized := normalize_search_text school_query in
  school_row ← execute (find_school db school_normalized);
  match school_row with
  | None => mret None
  | Some None => mret (Some None)
  | Some (Some s) =>
      authors ← execute (school_authors db s);
      advisors ← execute (school_advisors db s);
      let people_ids := people_ids_of authors advisors in
      results ← mapM (person_row db) (iterate people_ids);
      mret (Some (Some (merge_sort (λ x y, str_le (res_name x) (res_name y))
                          (concat results))))
  end.

(** [search()]: the two form fields are [request.form.get(..., '')].  An
    exception that leaves the function skips [conn.close()]. *)
Definition search (db : Store) (name_search school_search : str) : IO Response :=
  let name_query := strip name_search in
  let school_query := strip school_search in
  if negb (truthy name_query) && negb (truthy school_query) then
    mret (render_error please_enter)
  else
    connect;;
    if truthy name_query then
      found ← searchByName db name_query;
      match found with
      | None => mret internal_server_error
      | Some results =>
          close;;
          mret (render_results results name_query school_query)
      end
    else if truthy school_query then
      found ← searchBySchool db school_query;
      match found with
      | None => mret internal_server_error
      | Some None => close;; mret (render_error university_not_found)
      | Some (Some results) =>
          close;;
          mret (render_results results name_query school_query)
      end
    else
      close;;
      mret (render_results [] name_query school_query).

End Search.

(** ** [init_database]: loading the rows of [dissertations.csv]

    The rows are what [csv.DictReader] yields: a dict from column names to
    values.  A line with fewer fields than the header leaves [None] under
    the missing columns, and [None.strip()] raises; a result of [None]
    below is that exception.  The file checks and the [CREATE] statements
    in front of the loop are left out: the tables start empty. *)

Section Ingestion.
Context {ucd : UnicodeData}.

(** [row.get(key, '').strip()] *)
Definition row_get (row : gmap (list N) (option (list N))) (key : str) : option (list N) :=
  match row !! key with
  | None => Some (strip [])
  | Some None => None
  | Some (Some value) => Some (strip value)
  end.

(** The column names [f'Advisor_ID_{i}'] and the like, for [i] in 1..8. *)
Definition slot_key (prefix : string) (i : nat) : str :=
  u prefix ++ [N.of_nat (48 + i)].

(** What the loop has built so far: the two dicts and the rows inserted
    in [dissertations] and [advisors]. *)
Record Tables := mkTables {
  people_dict : list (list N * Person);
  schools_dict : list (list N * School);
  dissertation_rows : list Dissertation;
  advisor_rows : list Advisor
}.

(** [if id not in people_dict: people_dict[id] = {...}] *)
Definition remember_person (pid pname pyears : str)
    (people : list (list N * Person)) : list (list N * Person) :=
  match dict_get pid people with
  | None => dict_add pid (mkPerson pid pname pyears (normalize_search_text pname)) people
  | Some _ => people
  end.

(** [if school_id not in schools_dict: schools_dict[school_id] = {...}] *)
Definition remember_school (sid sname : str)
    (schools : list (list N * School)) : list (list N * School) :=
  match dict_get sid schools with
  | None => dict_add sid (mkSchool sid sname (normalize_search_text sname)) schools
  | Some _ => schools
  end.

(** The first [for i in range(1, 9)] loop: advisors become people. *)
Fixpoint advisor_people (row : gmap (list N) (option (list N))) (slots : list nat)
    (people : list (list N * Person)) : option (list (list N * Person)) :=
  match slots with
  | [] => Some people
  | i :: slots' =>
      advisor_id ← row_get row (slot_key "Advisor_ID_" i);
      advisor_name ← row_get row (slot_key "Advisor_Name_" i);
      advisor_people row slots'
        (if truthy advisor_id && truthy advisor_name
            && negb (bool_decide (advisor_id = u "na"))
         then remember_person advisor_id advisor_name [] people
         else people)
  end.

(** The second [for i in range(1, 9)] loop: the rows of [advisors]. *)
Fixpoint advisor_links (row : gmap (list N) (option (list N))) (dissertation_id : str)
    (slots : list nat) (table : list Advisor) : option (list Advisor) :=
  match slots with
  | [] => Some table
  | i :: slots' =>
      advisor_id ← row_get row (slot_key "Advisor_ID_" i);
      advisor_name ← row_get row (slot_key "Advisor_Name_" i);
      advisor_role ← row_get row (slot_key "Advisor_Role_" i);
      advisor_links row dissertation_id slots'
        (if truthy advisor_id && negb (bool_decide (advisor_id = u "na"))
         then table ++ [mkAdvisor dissertation_id advisor_id advisor_name advisor_role i]
         else table)
  end.

(** [INSERT OR IGNORE] into a table with a primary key. *)
Definition insert_or_ignore {A} (key : A → list N) (row : A) (table : list A) : list A :=
  if decide (key row ∈ key <$> table) then table else table ++ [row].

(** [INSERT OR IGNORE INTO dissertations] *)
Definition insert_dissertation (d : Dissertation) (table : list Dissertation)
    : list Dissertation :=
  insert_or_ignore dissertation_id d table.

(** The body of [for row in reader]. *)
Definition load_row (t : Tables) (row : gmap (list N) (option (list N))) : option Tables :=
  author_id ← row_get row (u "Author_ID");
  author_name ← row_get row (u "Author_Name");
  years ← row_get row (u "Years");
  let people :=
    if truthy author_id && truthy author_name
    then remember_person author_id author_name years (people_dict t)
    else people_dict t in
  school_id ← row_get row (u "School_ID");
  school_name ← row_get row (u "School");
  let schools :=
    if truthy school_id && truthy school_name
    then remember_school school_id school_name (schools_dict t)
    else schools_dict t in
  people ← advisor_people row (seq 1 8) people;
  dissertation_id ← row_get row (u "ID");
  if truthy dissertation_id then
    title ← row_get row (u "Title");
    year ← row_get row (u "Year");
    department ← row_get row (u "Department");
    subject_broad ← row_get row (u "Subject_broad");
    let dissertations :=
      insert_dissertation
        (mkDissertation dissertation_id author_id author_name title year
           school_name school_id department subject_broad)
        (dissertation_rows t) in
    advisors ← advisor_links row dissertation_id (seq 1 8) (advisor_rows t);
    Some (mkTables people schools dissertations advisors)
  else Some (mkTables people schools (dissertation_rows t) (advisor_rows t)).

Fixpoint load_rows (t : Tables) (rows : list (gmap (list N) (option (list N))))
    : option Tables :=
  match rows with
  | [] => Some t
  | row :: rows' => t' ← load_row t row; load_rows t' rows'
  end.

(** [init_database] from the loop on: the rows are loaded, then the two
    dicts are written to [people] and [schools]. *)
Definition init_database (rows : list (gmap (list N) (option (list N)))) : option Store :=
  t ← load_rows (mkTables [] [] [] []) rows;
  Some (mkStore
          (foldl (λ table p, insert_or_ignore person_id p table) [] (people_dict t).*2)
          (dissertation_rows t)
          (advisor_rows t)
          (foldl (λ table s, insert_or_ignore sch_school_id s table) [] (schools_dict t).*2)).

End Ingestion.

(** What the loader keeps true of a person, a school, a dissertation and
    an advisor row. *)
Definition person_ok {ucd : UnicodeData} (p : Person) : Prop :=
  person_id p ≠ [] ∧ name p ≠ [] ∧ strip (name p) = name p ∧
  name_normalized p = normalize_search_text (name p).

Definition school_ok {ucd : UnicodeData} (s : School) : Prop :=
  sch_school_id s ≠ [] ∧ school_name s ≠ [] ∧ strip (school_name s) = school_name s ∧
  school_name_normalized s = normalize_search_text (school_name s).

Definition advisor_ok (a : Advisor) : Prop :=
  advisor_id a ≠ [] ∧ advisor_id a ≠ u "na" ∧ 1 ≤ advisor_number a ≤ 8.

(** The row names [pid] as a person: as its author, or as an advisor in
    one of the eight slots. *)
Definition names_person {ucd : UnicodeData}
    (row : gmap (list N) (option (list N))) (pid : str) : Prop :=
  pid ≠ [] ∧
  ((row_get row (u "Author_ID") = Some pid ∧
    ∃ n, row_get row (u "Author_Name") = Some n ∧ n ≠ []) ∨
   (pid ≠ u "na" ∧
    ∃ i n, i ∈ seq 1 8 ∧ row_get row (slot_key "Advisor_ID_" i) = Some pid ∧
           row_get row (slot_key "Advisor_Name_" i) = Some n ∧ n ≠ [])).

(** What the loader keeps true of its tables: ids are unique, people and
    schools are well formed, every advisor row points at a dissertation
    row, and whoever a row names together with a name is in the dict of
    people. *)
Definition tables_ok {ucd : UnicodeData} (t : Tables) : Prop :=
  NoDup (people_dict t).*1 ∧
  Forall (λ kp, person_id kp.2 = kp.1 ∧ person_ok kp.2) (people_dict t) ∧
  NoDup (schools_dict t).*1 ∧
  Forall (λ ks, sch_school_id ks.2 = ks.1 ∧ school_ok ks.2) (schools_dict t) ∧
  NoDup (dissertation_id <$> dissertation_rows t) ∧
  Forall (λ d, dissertation_id d ≠ [] ∧
               (author_id d ≠ [] → author_name d ≠ [] →
                author_id d ∈ (people_dict t).*1)) (dissertation_rows t) ∧
  Forall (λ a, advisor_ok a ∧
               adv_dissertation_id a ∈ dissertation_id <$> dissertation_rows t ∧
               (advisor_name a ≠ [] → advisor_id a ∈ (people_dict t).*1))
    (advisor_rows t).

(** The columns that the loop reads from every row, whatever the row
    holds. *)
Definition always_read : list (list N) :=
  [u "Author_ID"; u "Author_Name"; u "Years"; u "School_ID"; u "School"; u "ID"]
  ++ (slot_key "Advisor_ID_" <$> seq 1 8)
  ++ (slot_key "Advisor_Name_" <$> seq 1 8).

(** ** [log_correction] and the routes that write to the log

    The log file is the list of rows that [csv.writer] has written to it,
    and [None] while the file does not exist.  [now] is the text of
    [datetime.now().isoformat()] at the time of the call. *)

Definition log_header : list (list N) :=
  [u "Timestamp"; u "User_Name"; u "Action_Type"; u "Record_ID"; u "Details"].

(** [log_correction(user_name, action_type, record_id, details)]: the
    file after the call. *)
Definition log_correction (now : str) (log : option (list (list (list N))))
    (user_name action_type record_id details : str) : option (list (list (list N))) :=
  let file_exists := bool_decide (is_Some log) in
  let f := default [] log in
  let f := if file_exists then f else f ++ [log_header] in
  Some (f ++ [[now; user_name; action_type; record_id; details]]).

(** What a route returns. *)
Inductive Reply :=
| reply_text (body : str) (status : nat)
| reply_redirect_to_person (person_id : str)
| reply_confirmation (message : str)
| reply_add_form.

Section Posts.
Context {ucd : UnicodeData}.
(** [str(details)]: Python's rendering of a dict of strings. *)
Variable dict_str : list (list N * list N) → list N.

(** [request.form.get(key, '').strip()] *)
Definition form_get (form : gmap (list N) (list N)) (key : str) : str :=
  strip (default [] (form !! key)).

(** The dict [details] of [edit_person] and [add_person]. *)
Definition form_details (form : gmap (list N) (list N)) : list (list N * list N) :=
  (λ key, (key, form_get form key)) <$>
    [u "person_name"; u "years"; u "school"; u "department"; u "title"; u "year"].

(** [edit_person(person_id)] for a POST request: the log and the reply. *)
Definition edit_person_post (now : str) (log : option (list (list (list N))))
    (person_id : str) (form : gmap (list N) (list N))
    : option (list (list (list N))) * Reply :=
  let user_name := form_get form (u "user_name") in
  if negb (truthy user_name) then (log, reply_text (u "Your name is required") 400)
  else
    let details := form_details form in
    (log_correction now log user_name (u "edit") person_id (dict_str details),
     reply_redirect_to_person person_id).

(** [add_person()]: [uuid_hex] is [uuid.uuid4().hex]; a GET request
    ([form = None]) shows the empty form. *)
Definition add_person (now uuid_hex : str) (log : option (list (list (list N))))
    (form : option (gmap (list N) (list N)))
    : option (list (list (list N))) * Reply :=
  match form with
  | Some form =>
      let user_name := form_get form (u "user_name") in
      if negb (truthy user_name) then (log, reply_text (u "Your name is required") 400)
      else
        let details := form_details form in
        let new_person_id := u "NEW_" ++ take 8 uuid_hex in
        (log_correction now log user_name (u "add_new") new_person_id (dict_str details),
         reply_confirmation
           (u "Thank you! Your information has been recorded for "
              ++ default [] (dict_get (u "person_name") details)))
  | None => (log, reply_add_form)
  end.

(** A POST request as the two routes receive it, with the clock and the
    random id of the moment. *)
Inductive Post :=
| post_edit (now person_id : list N) (form : gmap (list N) (list N))
| post_add (now uuid_hex : list N) (form : gmap (list N) (list N)).

Definition handle_post (log : option (list (list (list N)))) (r : Post)
    : option (list (list (list N))) * Reply :=
  match r with
  | post_edit now person_id form => edit_person_post now log person_id form
  | post_add now uuid_hex form => add_person now uuid_hex log (Some form)
  end.

(** The row that an accepted request appends. *)
Definition post_row (r : Post) : list (list N) :=
  match r with
  | post_edit now person_id form =>
      [now; form_get form (u "user_name"); u "edit"; person_id;
       dict_str (form_details form)]
  | post_add now uuid_hex form =>
      [now; form_get form (u "user_name"); u "add_new"; u "NEW_" ++ take 8 uuid_hex;
       dict_str (form_details form)]
  end.

(** The request carries a user name. *)
Definition post_signed (r : Post) : bool :=
  match r with
  | post_edit _ _ form | post_add _ _ form => truthy (form_get form (u "user_name"))
  end.

(** The log after a series of requests. *)
Definition handle_posts (log : option (list (list (list N)))) (posts : list Post)
    : option (list (list (list N))) :=
  foldl (λ log r, (handle_post log r).1) log posts.

End Posts.

(** [download_corrections()]: 404 while there is no log file, else the
    file. *)
Definition download_corrections (log : option (list (list (list N))))
    : (list N * nat) + list (list (list N)) :=
  match log with
  | None => inl (u "No corrections log found", 404)
  | Some rows => inr rows
  end.

(** ** [person_detail], [edit_person] (GET) and [get_schools] *)

(** [x or 'Unknown'] and the like. *)
Definition or_else (x fallback : str) : str := if truthy x then x else fallback.

Record PageAdvisor := mkPageAdvisor {
  pa_advisor_id : str;
  pa_name : str;
  pa_role : str
}.

Record PageDissertation := mkPageDissertation {
  pd_title : str;
  pd_year : str;
  pd_school : str;
  pd_department : str;
  pd_subject : str;
  pd_dissertation_id : str;
  pd_advisors : list PageAdvisor
}.

Record PageStudent := mkPageStudent {
  ps_student_id : str;
  ps_name : str;
  ps_year : str;
  ps_school : str
}.

(** The values that [person_detail] hands to [person.html]. *)
Record PersonPage := mkPersonPage {
  pg_person_id : str;
  pg_person_name : str;
  pg_years : str;
  pg_dissertation : option PageDissertation;
  pg_students : list PageStudent;
  pg_affiliations : list Affiliation;
  pg_direct_students : nat;
  pg_total_descendants : nat;
  pg_max_generations : nat
}.

(** [SELECT ... FROM advisors WHERE dissertation_id = ?
     ORDER BY advisor_number] *)
Definition slot_le (a b : Advisor) : Prop := advisor_number a ≤ advisor_number b.

#[global] Instance slot_le_dec a b : Decision (slot_le a b).
Proof. unfold slot_le. apply _. Defined.

Definition advisors_of (db : Store) (dissertation_id : str) : list Advisor :=
  merge_sort slot_le
    (filter (λ a, adv_dissertation_id a = dissertation_id) (advisors db)).

(** [SELECT name, years FROM people WHERE person_id = ?] with [fetchone] *)
Definition find_person (db : Store) (pid : str) : option Person :=
  head (filter (λ p, person_id p = pid) (people db)).

(** [SELECT ... FROM dissertations WHERE author_id = ?] with [fetchone] *)
Definition find_dissertation (db : Store) (pid : str) : option Dissertation :=
  head (filter (λ d, author_id d = pid) (dissertations db)).

Definition page_advisor (a : Advisor) : PageAdvisor :=
  mkPageAdvisor (advisor_id a) (or_else (advisor_name a) (u "Unknown"))
    (or_else (advisor_role a) (u "Advisor")).

(** The dict [dissertation] with its advisors. *)
Definition page_dissertation (db : Store) (d : Dissertation) : PageDissertation :=
  mkPageDissertation
    (or_else (title d) (u "Unknown")) (or_else (year d) (u "Unknown"))
    (or_else (school d) (u "Unknown")) (or_else (department d) (u "Unknown"))
    (or_else (subject_broad d) (u "Unknown")) (dissertation_id d)
    (page_advisor <$> advisors_of db (dissertation_id d)).

(** [ORDER BY d.year, p.name] on rows [(author_id, name, year, school)] *)
Definition student_row_le (r1 r2 : list N * list N * list N * list N) : Prop :=
  if decide (r1.1.2 = r2.1.2) then str_le r1.1.1.2 r2.1.1.2 else str_le r1.1.2 r2.1.2.

#[global] Instance student_row_le_dec r1 r2 : Decision (student_row_le r1 r2).
Proof. unfold student_row_le. destruct (decide (r1.1.2 = r2.1.2)); apply _. Defined.

(** [SELECT DISTINCT d.author_id, p.name, d.year, d.school
     FROM advisors a JOIN dissertations d ON ... JOIN people p
     ON d.author_id = p.person_id WHERE a.advisor_id = ?
     ORDER BY d.year, p.name] *)
Definition student_rows_of (db : Store) (pid : str)
    : list (list N * list N * list N * list N) :=
  merge_sort student_row_le
    (distinct (d ← advised_dissertations db pid;
               (λ p, (author_id d, name p, year d, school d)) <$>
                 filter (λ p, person_id p = author_id d) (people db))).

Definition page_student (r : list N * list N * list N * list N) : PageStudent :=
  mkPageStudent r.1.1.1 r.1.1.2 (or_else r.1.2 (u "Unknown")) (or_else r.2 (u "Unknown")).

(** [person_detail(person_id)] when the interpreter allows [frames] nested
    calls of [get_descendants_count]: [inl] is the reply "Person not
    found", 404, and the outer [None] is the [RecursionError] of the
    traversal, with which the request ends. *)
Definition person_detail (frames : nat) (db : Store) (person_id : str)
    : option ((list N * nat) + PersonPage) :=
  match find_person db person_id with
  | None => Some (inl (u "Person not found", 404))
  | Some person_row =>
      let dissertation := page_dissertation db <$> find_dissertation db person_id in
      let students := page_student <$> student_rows_of db person_id in
      stats ← descendantStats_within frames db person_id;
      let direct_students := length students in
      let affiliations := affiliationsOf db person_id in
      Some (inr (mkPersonPage person_id (name person_row)
                   (or_else (years person_row) (u "Unknown"))
                   dissertation students affiliations direct_students
                   stats.1 stats.2))
  end.



(** [get_schools()]: [SELECT DISTINCT school_name FROM schools
     ORDER BY school_name] *)
Definition get_schools (db : Store) : list (list N) :=
  merge_sort str_le (distinct (school_name <$> schools db)).

(** ** Entries of the affiliations dict *)

(** [row_hits k school school_id]: the row names a school and its key is [k]. *)
Definition row_hits (k : list N) (school school_id : list N) : bool :=
  truthy school && bool_decide (school_key school school_id = k).

(** What an entry looks like when the first loop has created it. *)
Definition student_entry (a : Affiliation) : Prop :=
  student a = true ∧ faculty a = false ∧ aff_school a ≠ [].

(** What every entry of the finished dict looks like. *)
Definition affiliation_ok (a : Affiliation) : Prop :=
  (student a = true ∨ faculty a = true) ∧ aff_school a ≠ [].

(** ** The search branches, row by row *)

(** The entry that the result loop builds for a row of [people]. *)
Definition result_of (db : Store) (p : Person) : PersonResult :=
  mkResult (person_id p) (name p) (years p) (affiliationsOf db (person_id p)).

(** The rows that the name branch reads, whichever statement it runs;
    [None] when the second statement raises as well. *)
Definition name_rows {ucd : UnicodeData} {limits : SqliteLimits}
    (db : Store) (name_query : str) : option (list Person) :=
  let name_normalized := normalize_search_text name_query in
  let name_parts := name_parts_of name_normalized in
  if decide (name_parts = []) then Some []
  else
    match (if statement_refused name_parts then None
           else people_like db (contains_pattern <$> name_parts)) with
    | Some rows => Some rows
    | None => people_like db [contains_pattern name_normalized]
    end.

(** The person has a row in [people]. *)
Definition in_people (db : Store) (pid : str) : Prop :=
  ∃ p, p ∈ people db ∧ person_id p = pid.



(** The rows that the school branch collects for a school, before the sort. *)
Definition school_results {order : SetOrder} (db : Store) (s : School)
    : list PersonResult :=
  concat ((λ pid, (person_row db pid).2) <$>
          iterate (people_ids_of (school_authors db s) (school_advisors db s))).

(** ** What the normalizer needs of the Unicode data *)

(** A character that normalization leaves alone: no decomposition, not a
    non-spacing mark, combining class 0. *)
Definition plain {ucd : UnicodeData} (c : N) : Prop :=
  decomposition c = [c] ∧ category_Mn c = false ∧ combining c = 0.

(** A character that [str.lower] leaves alone. *)
Definition lowered {ucd : UnicodeData} (c : N) : Prop := str_lower [c] = [c].

(** Facts of the Unicode Character Database that the normalizer relies on:
    a full decomposition cannot be decomposed further; lowering a string
    of plain characters gives plain characters; the characters of a lowered
    string are lowered, and a string of lowered characters is its own
    lowering. *)
Class UnicodeLaws {ucd : UnicodeData} : Prop := {
  decomposition_full : ∀ c d, d ∈ decomposition c → decomposition d = [d];
  lower_plain : ∀ s, Forall plain s → Forall plain (str_lower s);
  lower_lowered : ∀ s, Forall lowered (str_lower s);
  lower_fixed : ∀ s, Forall lowered s → str_lower s = s
}.

(** ** The advisor graph, as the specification describes it *)

(** [advises db a s]: [s] wrote a dissertation on which [a] is an advisor. *)
Definition advises (db : Store) (a s : str) : Prop := s ∈ direct_students db a.

(** The descendants of a person: everyone reachable along [advises]. *)
Definition descendant (db : Store) : relation (list N) := tc (advises db).

(** Everyone who can be met below a root: the authors of the store. *)
Definition authors (db : Store) : gset (list N) :=
  list_to_set (author_id <$> dissertations db).

(** The number of advisor-to-student links that leave the people of [X]. *)
Definition links (db : Store) (X : gset (list N)) : nat :=
  sum_list_with (λ p, length (direct_students db p)) (elements X).

(** What a call [get_descendants_count(pid, v)] with result [r]
    establishes: the visited set grows, the count is the number of links
    leaving the newly visited people, their students are all visited, and
    they are reachable from the person of the call. *)
Definition call_spec (db : Store) (pid : list N) (v : gset (list N))
    (r : nat * nat * gset (list N)) : Prop :=
  v ⊆ r.2 ∧ pid ∈ r.2 ∧
  r.1.1 = links db (r.2 ∖ v) ∧
  (∀ x, x ∈ r.2 ∖ v → ∀ s, s ∈ direct_students db x → s ∈ r.2) ∧
  (∀ x, x ∈ r.2 ∖ v → rtc (advises db) pid x).



(** ** Substrings, as the specification speaks of them *)

(** [t] occurs in [s] as a run of consecutive characters. *)
Definition substring (t s : str) : Prop := ∃ pre post, s = pre ++ t ++ post.


(** No [%] and no [_]. *)
Definition wildcard_free (s : str) : Prop := (37%N ∉ s) ∧ (95%N ∉ s).

(** ** Sample data *)

(** The rows of the Unicode Character Database that the samples touch:
    the Latin letters A-Z, U+00C9 and U+00E9 (E and e with acute, which
    decompose into the letter and U+0301), the combining diacritical marks
    U+0300-U+036F (category Mn; U+0300-U+0314 have combining class 230 and
    U+034F, the grapheme joiner, has class 0), the musical symbols U+1D165
    (combining stem, category Mc, class 216) and U+1D16D (combining
    augmentation dot, category Mc, class 226), and the white space
    characters.  Every other code point is given no decomposition, class 0,
    a category other than Mn and no case. *)
Definition sample_decomposition (c : N) : list N :=
  if decide (c = 0xC9%N) then [0x45%N; 0x301%N]
  else if decide (c = 0xE9%N) then [0x65%N; 0x301%N]
  else [c].

Definition sample_combining (c : N) : nat :=
  if decide (0x300 ≤ c ≤ 0x314)%N then 230
  else if decide (c = 0x1D165%N) then 216
  else if decide (c = 0x1D16D%N) then 226
  else 0.

Definition sample_Mn (c : N) : bool := bool_decide (0x300 ≤ c ≤ 0x36F)%N.

Definition sample_lower_char (c : N) : N :=
  if decide (0x41 ≤ c ≤ 0x5A)%N then (c + 32)%N
  else if decide (c = 0xC9%N) then 0xE9%N
  else c.

Definition sample_isspace (c : N) : bool :=
  bool_decide (c ∈ [0x9; 0xA; 0xB; 0xC; 0xD; 0x1C; 0x1D; 0x1E; 0x1F; 0x20; 0x85;
                    0xA0; 0x1680; 0x2000; 0x2001; 0x2002; 0x2003; 0x2004; 0x2005;
                    0x2006; 0x2007; 0x2008; 0x2009; 0x200A; 0x2028; 0x2029;
                    0x202F; 0x205F; 0x3000]%N).

Definition sample_unicode : UnicodeData :=
  {| decomposition := sample_decomposition;
     combining := sample_combining;
     category_Mn := sample_Mn;
     str_lower := fmap sample_lower_char;
     isspace := sample_isspace |}.

(** A build of SQLite that refuses a statement with more than 999 clauses
    and has the default limit on the length of a pattern. *)
Definition sample_limits : SqliteLimits :=
  {| statement_refused := λ parts, bool_decide (999 < length parts);
     like_pattern_length := 50000%N |}.

(** A process in which a set is read in the order of [elements]. *)
Definition sample_order : SetOrder :=
  {| iterate := elements; iterate_elements := λ X, reflexivity (elements X) |}.

(** A dissertation row and an advisor row with the columns that matter. *)
Definition sample_dissertation (id author school school_id year : string) : Dissertation :=
  mkDissertation (u id) (u author) (u author) [] (u year) (u school) (u school_id) [] [].

Definition sample_advisor (id advisor : string) (slot : nat) : Advisor :=
  mkAdvisor (u id) (u advisor) (u advisor) [] slot.

(** A advised B and C; B and C both advised D. *)
Definition diamond : Store :=
  mkStore []
    [sample_dissertation "d1" "B" "" "" ""; sample_dissertation "d2" "C" "" "" "";
     sample_dissertation "d3" "D" "" "" ""]
    [sample_advisor "d1" "A" 1; sample_advisor "d2" "A" 1;
     sample_advisor "d3" "B" 1; sample_advisor "d3" "C" 2]
    [].

(** A and B advised C, A advised B, C advised D; the row of C's
    dissertation comes first in the source table. *)
Definition lattice : Store :=
  mkStore []
    [sample_dissertation "d1" "C" "" "" ""; sample_dissertation "d2" "B" "" "" "";
     sample_dissertation "d3" "D" "" "" ""]
    [sample_advisor "d1" "A" 1; sample_advisor "d1" "B" 2;
     sample_advisor "d2" "A" 1; sample_advisor "d3" "C" 1]
    [].

(** A advised B; A and B together advised C. *)
Definition co_advised : Store :=
  mkStore []
    [sample_dissertation "d1" "B" "" "" ""; sample_dissertation "d2" "C" "" "" ""]
    [sample_advisor "d1" "A" 1; sample_advisor "d2" "A" 1; sample_advisor "d2" "B" 2]
    [].

(** A data error: A advised B and B advised A. *)
Definition two_cycle : Store :=
  mkStore []
    [sample_dissertation "d1" "B" "" "" ""; sample_dissertation "d2" "A" "" "" ""]
    [sample_advisor "d1" "A" 1; sample_advisor "d2" "B" 1]
    [].

(** A advised B, B advised C. *)
Definition chain3 : Store :=
  mkStore []
    [sample_dissertation "d1" "B" "" "" ""; sample_dissertation "d2" "C" "" "" ""]
    [sample_advisor "d1" "A" 1; sample_advisor "d2" "B" 1]
    [].



(** P took a degree at X University in 1990 and later advised Q there;
    P also advised R at a school that is recorded without an id. *)
Definition thesis_P : Dissertation :=
  sample_dissertation "d1" "P" "X University" "sX" "1990".
Definition thesis_Q : Dissertation :=
  sample_dissertation "d2" "Q" "X University" "sX" "2001".
Definition thesis_R : Dissertation :=
  sample_dissertation "d3" "R" "Y College" "" "2005".
Definition P_advises_Q : Advisor := sample_advisor "d2" "P" 1.
Definition school_X : School :=
  mkSchool (u "sX") (u "X University") (u "x university").

Definition campus : Store :=
  mkStore
    [mkPerson (u "P") (u "Pat") (u "1960-") (u "pat");
     mkPerson (u "Q") (u "Quinn") [] (u "quinn");
     mkPerson (u "R") (u "Robin") [] (u "robin")]
    [thesis_P; thesis_Q; thesis_R]
    [P_advises_Q; sample_advisor "d3" "P" 1]
    [school_X].

Definition campus_entry : Affiliation :=
  mkAffiliation (u "X University") true true (Some (u "1990")).

(** The same degree of P; the row of the dissertation that P advised
    carries the id of X University and no school name. *)
Definition thesis_Q_unnamed : Dissertation :=
  sample_dissertation "d2" "Q" "" "sX" "2001".

Definition campus_unnamed : Store :=
  mkStore
    [mkPerson (u "P") (u "Pat") (u "1960-") (u "pat");
     mkPerson (u "Q") (u "Quinn") [] (u "quinn")]
    [thesis_P; thesis_Q_unnamed]
    [P_advises_Q]
    [school_X].

(** Ann Lee and Bo Chen; nobody has an underscore in their name. *)
Definition ann : Person := mkPerson (u "p2") (u "Lee, Ann") [] (u "lee, ann").
Definition bo : Person := mkPerson (u "p1") (u "Chen, Bo") [] (u "chen, bo").

Definition roster : Store := mkStore [ann; bo] [] [] [].



(** "Émile" *)
Definition Emile : list N := [0xC9; 0x6D; 0x69; 0x6C; 0x65]%N.

(** A combining augmentation dot, a grapheme joiner and a combining stem. *)
Definition dotted_stem : list N := [0x1D16D; 0x34F; 0x1D165]%N.

(** A file of three lines: Ronald Numbers with his advisor, a line that
    repeats the dissertation id, and a line that was cut short before the
    ID column. *)
Definition cell (column value : string) : list N * option (list N) :=
  (u column, Some (u value)).

Definition line_numbers : gmap (list N) (option (list N)) :=
  list_to_map
    [cell "ID" "d1"; cell "Author_ID" "p1"; cell "Author_Name" " Numbers, Ronald ";
     cell "Years" "1942-"; cell "School" "Berkeley"; cell "School_ID" "s1";
     cell "Year" "1969"; cell "Advisor_ID_1" "p9";
     cell "Advisor_Name_1" "Hahn, Roger"; cell "Advisor_Role_1" "Chair";
     cell "Advisor_ID_2" "na"].

Definition line_repeated : gmap (list N) (option (list N)) :=
  list_to_map
    [cell "ID" "d1"; cell "Author_ID" "p2"; cell "Author_Name" "Lee, Ann";
     cell "Advisor_ID_3" "p1"; cell "Advisor_Name_3" "Numbers, R."].

Definition line_short : gmap (list N) (option (list N)) :=
  list_to_map [cell "Author_ID" "p3"; (u "ID", None)].

Definition sample_csv : list (gmap (list N) (option (list N))) :=
  [line_numbers; line_repeated].

Definition numbers : Person :=
  mkPerson (u "p1") (u "Numbers, Ronald") (u "1942-") (u "numbers, ronald").

Definition sample_loaded : Store :=
  mkStore
    [numbers;
     mkPerson (u "p9") (u "Hahn, Roger") [] (u "hahn, roger");
     mkPerson (u "p2") (u "Lee, Ann") [] (u "lee, ann")]
    [mkDissertation (u "d1") (u "p1") (u "Numbers, Ronald") [] (u "1969")
       (u "Berkeley") (u "s1") [] []]
    [mkAdvisor (u "d1") (u "p9") (u "Hahn, Roger") (u "Chair") 1;
     mkAdvisor (u "d1") (u "p1") (u "Numbers, R.") [] 3]
    [mkSchool (u "s1") (u "Berkeley") (u "berkeley")].

(** A stand-in for [str(details)], and two POST requests: one to [/add]
    that carries no user name, one to [/edit/p2] signed by Ann. *)
Definition flat_dict_str (details : list (list N * list N)) : list N :=
  concat ((λ kv, kv.1 ++ u "=" ++ kv.2 ++ u ";") <$> details).

Definition unsigned_post : Post :=
  post_add (u "2024-01-01T09:00:00") (u "0123456789abcdef")
    (list_to_map [(u "person_name", u "Lee, Ann")]).

Definition signed_post : Post :=
  post_edit (u "2024-01-02T09:00:00") (u "p2")
    (list_to_map [(u "user_name", u " Ann "); (u "years", u "1950-")]).

(** * Properties *)

(** ** Descendant counter *)

Example chain3_stats : descendantStats chain3 (u "A") = Some (2, 2).
Proof. vm_compute. reflexivity. Qed.

Example leaf_stats : descendantStats chain3 (u "C") = Some (0, 0).
Proof. vm_compute. reflexivity. Qed.

Example two_cycle_stats : descendantStats two_cycle (u "A") = Some (2, 2).
Proof. vm_compute. reflexivity. Qed.

Example lattice_stats : descendantStats lattice (u "A") = Some (4, 2).
Proof. vm_compute. reflexivity. Qed.

Example diamond_stats : descendantStats diamond (u "A") = Some (4, 2).
Proof. vm_compute. reflexivity. Qed.

Section Traversal.
Variable db : Store.
#[local] Abbreviation authors := (authors db).

Lemma distinct_from_subseteq `{EqDecision A} (seen l : list A) :
  distinct_from seen l ⊆ l.
Proof.
  revert seen. induction l as [|x l IH]; intros seen; simpl; [done|].
  case_decide.
  - intros y Hy. right. by apply (IH seen).
  - intros y Hy. apply elem_of_cons in Hy as [->|Hy]; [left|right].
    by apply (IH (x :: seen)).
Qed.

Lemma advised_dissertations_in pid d :
  d ∈ advised_dissertations db pid → d ∈ dissertations db.
Proof.
  unfold advised_dissertations. intros Hd.
  apply list_elem_of_bind in Hd as (a & Hd & _).
  by apply list_elem_of_filter in Hd as [_ ?].
Qed.

Lemma direct_students_authors pid s :
  s ∈ direct_students db pid → s ∈ authors.
Proof.
  unfold direct_students, authors, distinct. intros Hs.
  apply list_elem_of_filter in Hs as [_ Hs].
  apply distinct_from_subseteq in Hs.
  apply list_elem_of_fmap in Hs as (d & -> & Hd).
  apply elem_of_list_to_set, list_elem_of_fmap.
  exists d. split; [done|]. by eapply advised_dissertations_in.
Qed.








Lemma descendant_authors root p : descendant db root p → p ∈ authors.
Proof.
  induction 1 as [x y Hxy|x y z Hxy _ IH]; [|done].
  by apply (direct_students_authors x).
Qed.


End Traversal.

(** A person without direct students has no descendants and depth 0. *)
Lemma no_students_stats (db : Store) (person_id : list N) :
  direct_students db person_id = [] → descendantStats db person_id = Some (0, 0).
Proof.
  intros Hno. unfold descendantStats, enough_fuel.
  rewrite Nat.add_comm. simpl. rewrite decide_False by set_solver.
  by rewrite Hno.
Qed.

Example co_advised_stats : descendantStats co_advised (u "A") = Some (3, 2).
Proof. vm_compute. reflexivity. Qed.

Ltac by_evaluation := apply (bool_decide_unpack _); vm_compute; exact I.

(** C1.  The claim is that [totalDescendants] is the number of distinct
    descendants of the root and never exceeds it.  It fails on the store
    [co_advised]: A advised B, and A and B together advised C.  The
    descendants of A are exactly the two people B and C, and
    [get_descendants_count] returns a total of 3: C is in the [students]
    list of A and in that of B, and [len(students)] is added for both. *)
Theorem total_descendants_co_advised :
  descendantStats co_advised (u "A") = Some (3, 2) ∧
  NoDup [u "B"; u "C"] ∧
  ∀ p, descendant co_advised (u "A") p ↔ p ∈ [u "B"; u "C"].
Proof.
  split; [by vm_compute|]. split; [by_evaluation|].
  intros p. split.
  - intros Hp. apply descendant_authors in Hp.
    unfold authors in Hp. by apply elem_of_list_to_set in Hp.
  - intros Hp. apply elem_of_cons in Hp as [->|Hp].
    { apply tc_once. unfold advises. by_evaluation. }
    apply list_elem_of_singleton in Hp as ->.
    apply tc_once. unfold advises. by_evaluation.
Qed.



(** *** What the counter counts *)

Section Links.
Variable db : Store.
#[local] Abbreviation call_spec := (call_spec db).

Lemma links_empty : links db ∅ = 0.
Proof. unfold links. by rewrite elements_empty. Qed.

Lemma links_singleton p : links db {[p]} = length (direct_students db p).
Proof. unfold links. rewrite elements_singleton. simpl. lia. Qed.

Lemma links_disj_union (X Y : gset (list N)) :
  X ## Y → links db (X ∪ Y) = links db X + links db Y.
Proof.
  intros Hdisj. unfold links.
  by rewrite (elements_disj_union X Y Hdisj), sum_list_with_app.
Qed.

(** The links leaving the people visited between [v] and [v'] split at any
    set in between. *)
Lemma links_split (v w v' : gset (list N)) :
  v ⊆ w → w ⊆ v' → links db (v' ∖ v) = links db (w ∖ v) + links db (v' ∖ w).
Proof.
  intros Hvw Hwv'. rewrite <- links_disj_union by set_solver.
  f_equal. apply set_eq. intros x.
  rewrite elem_of_union, !elem_of_difference.
  destruct (decide (x ∈ w)); set_solver.
Qed.

Lemma students_loop_spec (fuel : nat) (pid : list N) (l : list (list N))
    (t0 d0 : nat) (w : gset (list N)) (r : nat * nat * gset (list N)) :
  (∀ s v r, get_descendants_count fuel db s v = Some r → call_spec s v r) →
  (∀ s, s ∈ l → advises db pid s) →
  students_loop (get_descendants_count fuel db) l t0 d0 w = Some r →
  w ⊆ r.2 ∧ (∀ s, s ∈ l → s ∈ r.2) ∧
  r.1.1 = t0 + links db (r.2 ∖ w) ∧
  (∀ x, x ∈ r.2 ∖ w → ∀ s, s ∈ direct_students db x → s ∈ r.2) ∧
  (∀ x, x ∈ r.2 ∖ w → rtc (advises db) pid x).
Proof.
  intros IH. revert t0 d0 w. induction l as [|s l IHl]; intros t0 d0 w Hl; simpl.
  - intros [= <-]. simpl. rewrite difference_diag_L, links_empty.
    repeat split; [done| |lia|set_solver|set_solver].
    intros s Hs. by apply elem_of_nil in Hs.
  - destruct (get_descendants_count fuel db s w) as [[[c k] w']|] eqn:E; [|done].
    intros Hloop. apply IH in E as (Hsub & Hin & Hc & Hclosed & Hreach). simpl in *.
    apply IHl in Hloop as (Hsub' & Hin' & Hc' & Hclosed' & Hreach').
    2: { intros s' Hs'. apply Hl. by right. }
    split; [set_solver|]. split; [|split; [|split]].
    + intros s' Hs'. apply elem_of_cons in Hs' as [->|Hs']; [set_solver|by apply Hin'].
    + rewrite Hc', Hc, (links_split w w' r.2) by done. lia.
    + intros x Hx y Hy. destruct (decide (x ∈ w')) as [Hxw|Hxw].
      * apply Hsub'. apply (Hclosed x); [set_solver|done].
      * apply (Hclosed' x); [set_solver|done].
    + intros x Hx. destruct (decide (x ∈ w')) as [Hxw|Hxw].
      * eapply rtc_l; [apply Hl; left|]. apply Hreach. set_solver.
      * apply Hreach'. set_solver.
Qed.

Lemma get_descendants_count_spec (fuel : nat) (pid : list N) (v : gset (list N))
    (r : nat * nat * gset (list N)) :
  get_descendants_count fuel db pid v = Some r → call_spec pid v r.
Proof.
  revert pid v r. induction fuel as [|fuel IH]; intros pid v r; [done|]. simpl.
  case_decide as Hv.
  { intros [= <-]. unfold call_spec. simpl. rewrite difference_diag_L, links_empty.
    repeat split; [done|done|set_solver|set_solver]. }
  destruct (direct_students db pid) as [|s l] eqn:E.
  - intros [= <-]. unfold call_spec. simpl.
    assert (Hd : ({[pid]} ∪ v) ∖ v = {[pid]}) by set_solver.
    rewrite Hd, links_singleton, E.
    repeat split; [set_solver|set_solver| |].
    + intros x Hx s Hs. apply elem_of_singleton in Hx as ->.
      rewrite E in Hs. by apply elem_of_nil in Hs.
    + intros x Hx. by apply elem_of_singleton in Hx as ->.
  - intros Hloop.
    apply (students_loop_spec fuel pid) in Hloop
      as (Hsub & Hin & Hc & Hclosed & Hreach); [|done|].
    2: { intros s' Hs'. unfold advises. by rewrite E. }
    unfold call_spec. split; [set_solver|]. split; [set_solver|].
    split; [|split].
    + rewrite Hc, (links_split v ({[pid]} ∪ v) r.2) by set_solver.
      assert (Hd : ({[pid]} ∪ v) ∖ v = {[pid]}) by set_solver.
      by rewrite Hd, links_singleton, E.
    + intros x Hx y Hy. destruct (decide (x = pid)) as [->|Hne].
      * apply Hin. by rewrite <- E.
      * apply (Hclosed x); [set_solver|done].
    + intros x Hx. destruct (decide (x = pid)) as [->|Hne]; [done|].
      apply Hreach. set_solver.
Qed.

Lemma tc_last_step {A} (R : relation A) x z :
  tc R x z → ∃ y, rtc R x y ∧ R y z.
Proof.
  induction 1 as [x z Hxz|x y z Hxy _ (w & Hyw & Hwz)].
  - by exists x.
  - exists w. split; [by eapply rtc_l|done].
Qed.

Lemma size_list_to_set_le (l : list (list N)) :
  size (list_to_set l : gset (list N)) ≤ length l.
Proof.
  induction l as [|x l IH].
  - by rewrite list_to_set_nil, size_empty.
  - rewrite list_to_set_cons, size_union_alt, size_singleton. simpl.
    assert (size (list_to_set l ∖ {[x]} : gset (list N))
            ≤ size (list_to_set l : gset (list N)))
      by (apply subseteq_size; set_solver).
    lia.
Qed.

Lemma size_students_le (l : list (list N)) :
  size (⋃ ((λ p, list_to_set (direct_students db p)) <$> l) : gset (list N))
  ≤ sum_list_with (λ p, length (direct_students db p)) l.
Proof.
  induction l as [|p l IH].
  - by rewrite fmap_nil, union_list_nil, size_empty.
  - rewrite fmap_cons, union_list_cons, size_union_alt. cbn [sum_list_with].
    pose proof (size_list_to_set_le (direct_students db p)).
    assert (size ((⋃ ((λ p, list_to_set (direct_students db p)) <$> l))
                  ∖ list_to_set (direct_students db p) : gset (list N))
            ≤ size (⋃ ((λ p, list_to_set (direct_students db p)) <$> l) : gset (list N)))
      by (apply subseteq_size; set_solver).
    lia.
Qed.

(** The total is the number of advisor-to-student links that leave the
    root and its descendants; it is never smaller than the number of
    distinct descendants, and larger as soon as two links reach the same
    person. *)
Theorem total_descendants_counts_links (root : list N) (total depth : nat) :
  descendantStats db root = Some (total, depth) →
  ∃ descendants : gset (list N),
    (∀ p, p ∈ descendants ↔ descendant db root p) ∧
    total = links db ({[root]} ∪ descendants) ∧
    size descendants ≤ total.
Proof.
  unfold descendantStats. intros Hstats.
  destruct (get_descendants_count (enough_fuel db) db root ∅) as [[[t d] v']|] eqn:E;
    [|done].
  injection Hstats as -> ->.
  apply get_descendants_count_spec in E as (_ & Hroot & Ht & Hclosed & Hreach).
  simpl in *. rewrite difference_empty_L in *.
  assert (Hall : ∀ p, rtc (advises db) root p → p ∈ v').
  { apply rtc_ind_r; [done|]. intros y z _ Hyz IH. by apply (Hclosed y). }
  set (D := (⋃ ((λ p, list_to_set (direct_students db p)) <$> elements v')) : gset (list N)).
  assert (HD : ∀ p, p ∈ D ↔ descendant db root p).
  { intros p. unfold D. rewrite elem_of_union_list. split.
    - intros (X & HX & Hp). apply list_elem_of_fmap in HX as (x & -> & Hx).
      apply elem_of_list_to_set in Hp. apply elem_of_elements in Hx.
      eapply tc_rtc_l; [by apply Hreach|]. by apply tc_once.
    - intros Hp. apply tc_last_step in Hp as (x & Hx & Hxp).
      exists (list_to_set (direct_students db x)). split.
      + apply list_elem_of_fmap. exists x. split; [done|].
        by apply elem_of_elements, Hall.
      + by apply elem_of_list_to_set. }
  exists D. split; [done|]. split.
  - rewrite Ht. f_equal. apply set_eq. intros p.
    rewrite elem_of_union, elem_of_singleton, HD. split.
    + intros Hp. apply Hreach, rtc_tc in Hp as [->|Hp]; auto.
    + intros [->|Hp]; [done|]. by apply Hall, tc_rtc.
  - rewrite Ht. apply size_students_le.
Qed.




Lemma students_loop_bounds (fuel : nat) (l : list (list N)) (t0 d0 : nat)
    (w : gset (list N)) (r : nat * nat * gset (list N)) :
  (∀ s v r, get_descendants_count fuel db s v = Some r → r.1.2 ≤ r.1.1) →
  d0 ≤ t0 → 1 ≤ t0 → 1 ≤ d0 →
  students_loop (get_descendants_count fuel db) l t0 d0 w = Some r →
  r.1.2 ≤ r.1.1 ∧ t0 ≤ r.1.1 ∧ 1 ≤ r.1.2.
Proof.
  intros IH. revert t0 d0 w. induction l as [|s l IHl]; intros t0 d0 w Hd Ht H1; simpl.
  - intros [= <-]. simpl. lia.
  - destruct (get_descendants_count fuel db s w) as [[[c k] w']|] eqn:E; [|done].
    intros Hloop. apply IH in E. simpl in E.
    apply IHl in Hloop; lia.
Qed.

Lemma get_descendants_count_bounds (fuel : nat) (pid : list N) (v : gset (list N))
    (r : nat * nat * gset (list N)) :
  get_descendants_count fuel db pid v = Some r →
  r.1.2 ≤ r.1.1 ∧
  (pid ∉ v → length (direct_students db pid) ≤ r.1.1 ∧
             (direct_students db pid ≠ [] → 1 ≤ r.1.2)).
Proof.
  revert pid v r. induction fuel as [|fuel IH]; intros pid v r; [done|]. simpl.
  case_decide as Hv; [by intros [= <-]|].
  destruct (direct_students db pid) as [|s l] eqn:E.
  { intros [= <-]. simpl. split; [lia|]. intros _. split; [lia|done]. }
  intros Hloop.
  apply (students_loop_bounds fuel) in Hloop as (? & ? & ?); simpl; [|by apply IH|lia..].
  split; [done|]. intros _. simpl in *. split; [lia|]. intros _. lia.
Qed.

End Links.






(** ** Affiliation aggregator *)

Section Dict.
Context {V : Type}.
Implicit Types (d : list (list N * V)) (key : list N).

Lemma dict_get_None key d : dict_get key d = None ↔ key ∉ d.*1.
Proof.
  induction d as [|[k v] d IH]; simpl.
  - split; [intros _; apply not_elem_of_nil|done].
  - case_decide as Hk; subst.
    + split; [done|]. intros []. left.
    + rewrite IH, not_elem_of_cons. naive_solver.
Qed.

Lemma dict_get_Some key d : is_Some (dict_get key d) ↔ key ∈ d.*1.
Proof.
  rewrite <- not_eq_None_Some, dict_get_None.
  split; [apply dec_stable|by intros ??].
Qed.

Lemma dict_update_keys (f : V → V) key d : (dict_update f key d).*1 = d.*1.
Proof.
  unfold dict_update. rewrite <- list_fmap_compose. apply list_fmap_ext.
  intros _ [k v] _. simpl. by case_decide.
Qed.

Lemma dict_update_lookup (f : V → V) key d i k v :
  d !! i = Some (k, v) →
  dict_update f key d !! i = Some (k, if decide (k = key) then f v else v).
Proof.
  intros Hi. unfold dict_update. rewrite list_lookup_fmap, Hi. simpl.
  by case_decide.
Qed.

End Dict.

Lemma distinct_from_complete `{EqDecision A} (seen l : list A) x :
  x ∈ l → x ∈ seen ∨ x ∈ distinct_from seen l.
Proof.
  revert seen. induction l as [|y l IH]; intros seen Hx; [by apply elem_of_nil in Hx|].
  simpl. apply elem_of_cons in Hx as [->|Hx].
  - case_decide; [by left|right; left].
  - case_decide.
    + by apply IH.
    + destruct (IH (y :: seen) Hx) as [Hs|Hd]; [|right; by right].
      apply elem_of_cons in Hs as [->|Hs]; [right; left|by left].
Qed.

Lemma distinct_complete `{EqDecision A} (l : list A) x : x ∈ l → x ∈ distinct l.
Proof.
  intros Hx. destruct (distinct_from_complete [] l x Hx) as [Hn|]; [|done].
  by apply elem_of_nil in Hn.
Qed.

(** The first loop only appends: an entry stays where it is. *)
Lemma add_student_lookup d row i e :
  d !! i = Some e → add_student d row !! i = Some e.
Proof.
  intros Hi. destruct row as [[sc sid] yr]. simpl.
  destruct (truthy sc); [|done].
  destruct (dict_get _ d); [done|].
  unfold dict_add. by apply lookup_app_l_Some.
Qed.

Lemma add_student_keys d row : NoDup d.*1 → NoDup (add_student d row).*1.
Proof.
  intros Hd. destruct row as [[sc sid] yr]. simpl.
  destruct (truthy sc); [|done].
  destruct (dict_get _ d) eqn:E; [done|].
  unfold dict_add. rewrite fmap_app. apply NoDup_app. split; [done|].
  split; [|apply NoDup_singleton].
  intros k Hk Hk'. apply list_elem_of_singleton in Hk' as ->.
  by apply dict_get_None in E.
Qed.

Lemma add_student_present d sc sid yr :
  truthy sc = true → school_key sc sid ∈ (add_student d (sc, sid, yr)).*1.
Proof.
  intros Hsc. simpl. rewrite Hsc.
  destruct (dict_get _ d) eqn:E.
  - apply dict_get_Some. by rewrite E.
  - unfold dict_add. rewrite fmap_app. apply elem_of_app. right. left.
Qed.

Lemma truthy_nonempty (s : list N) : truthy s = true ↔ s ≠ [].
Proof. by destruct s. Qed.

Lemma add_student_entries d row :
  Forall student_entry d.*2 → Forall student_entry (add_student d row).*2.
Proof.
  intros Hd. destruct row as [[sc sid] yr]. simpl.
  destruct (truthy sc) eqn:Hsc; [|done].
  destruct (dict_get _ d); [done|].
  unfold dict_add. rewrite fmap_app. apply Forall_app. split; [done|].
  apply Forall_singleton. repeat split. simpl. by apply truthy_nonempty.
Qed.

Lemma foldl_add_student rows d :
  NoDup d.*1 → Forall student_entry d.*2 →
  let d' := foldl add_student d rows in
  NoDup d'.*1 ∧ Forall student_entry d'.*2 ∧
  (∀ i e, d !! i = Some e → d' !! i = Some e) ∧
  (∀ sc sid yr, (sc, sid, yr) ∈ rows → truthy sc = true → school_key sc sid ∈ d'.*1).
Proof.
  revert d. induction rows as [|row rows IH]; intros d Hnd Hst; simpl.
  { repeat split; [done..|]. intros ??? Hin. by apply elem_of_nil in Hin. }
  destruct (IH (add_student d row)) as (Hnd' & Hst' & Hpre & Hkey).
  { by apply add_student_keys. }
  { by apply add_student_entries. }
  repeat split; [done..| |].
  - intros i e Hi. by apply Hpre, add_student_lookup.
  - intros sc sid yr Hin Hsc. apply elem_of_cons in Hin as [<-|Hin]; [|by eapply Hkey].
    pose proof (add_student_present d sc sid yr Hsc) as Hk.
    apply list_elem_of_lookup in Hk as [i Hi].
    apply list_lookup_fmap_Some in Hi as ([k e] & -> & He).
    apply list_elem_of_lookup. exists i.
    rewrite list_lookup_fmap, (Hpre _ _ He). done.
Qed.

Lemma student_entry_ok a : student_entry a → affiliation_ok a.
Proof. intros (? & _ & ?). split; [by left|done]. Qed.

Lemma set_faculty_ok a : affiliation_ok a → affiliation_ok (set_faculty a).
Proof. intros [_ ?]. split; [by right|done]. Qed.

Lemma add_faculty_ok d row :
  Forall affiliation_ok d.*2 → Forall affiliation_ok (add_faculty d row).*2.
Proof.
  intros Hd. destruct row as [sc sid]. simpl.
  destruct (truthy sc) eqn:Hsc; [|done].
  destruct (dict_get _ d).
  - unfold dict_update. rewrite <- list_fmap_compose.
    apply Forall_fmap. rewrite Forall_fmap in Hd.
    eapply Forall_impl; [exact Hd|]. intros [k e] He. simpl in *.
    case_decide; [by apply set_faculty_ok|done].
  - unfold dict_add. rewrite fmap_app. apply Forall_app. split; [done|].
    apply Forall_singleton. split; [by right|]. simpl. by apply truthy_nonempty.
Qed.

Lemma add_faculty_keys d row : NoDup d.*1 → NoDup (add_faculty d row).*1.
Proof.
  intros Hd. destruct row as [sc sid]. simpl.
  destruct (truthy sc); [|done].
  destruct (dict_get _ d) eqn:E; [by rewrite dict_update_keys|].
  unfold dict_add. rewrite fmap_app. apply NoDup_app. split; [done|].
  split; [|apply NoDup_singleton].
  intros k Hk Hk'. apply list_elem_of_singleton in Hk' as ->.
  by apply dict_get_None in E.
Qed.

(** The second loop marks an entry in place. *)
Lemma add_faculty_lookup d sc sid i k a :
  d !! i = Some (k, a) →
  add_faculty d (sc, sid) !! i
  = Some (k, if row_hits k sc sid then set_faculty a else a).
Proof.
  intros Hi. unfold row_hits. simpl.
  destruct (truthy sc); [|done]. simpl.
  destruct (dict_get _ d) eqn:E.
  - rewrite (dict_update_lookup _ _ _ _ _ _ Hi).
    case_decide; subst.
    + by rewrite bool_decide_eq_true_2.
    + by rewrite bool_decide_eq_false_2.
  - rewrite bool_decide_eq_false_2.
    + unfold dict_add. by apply lookup_app_l_Some.
    + intros Hk. apply dict_get_None in E. apply E. rewrite Hk.
      apply list_elem_of_lookup. exists i. by rewrite list_lookup_fmap, Hi.
Qed.

Lemma set_faculty_idemp a : set_faculty (set_faculty a) = set_faculty a.
Proof. done. Qed.

Lemma foldl_add_faculty_lookup rows d i k a :
  d !! i = Some (k, a) →
  foldl add_faculty d rows !! i
  = Some (k, if existsb (λ r, row_hits k r.1 r.2) rows then set_faculty a else a).
Proof.
  revert d a. induction rows as [|[sc sid] rows IH]; intros d a Hi; [done|].
  cbn [foldl existsb fst snd].
  rewrite (IH _ _ (add_faculty_lookup d sc sid i k a Hi)).
  destruct (row_hits k sc sid); cbn [orb]; [|done].
  by destruct (existsb _ rows).
Qed.

Lemma foldl_add_faculty rows d :
  NoDup d.*1 → Forall affiliation_ok d.*2 →
  NoDup (foldl add_faculty d rows).*1 ∧
  Forall affiliation_ok (foldl add_faculty d rows).*2.
Proof.
  revert d. induction rows as [|row rows IH]; intros d Hnd Hok; simpl; [done|].
  apply IH; [by apply add_faculty_keys|by apply add_faculty_ok].
Qed.

Lemma affiliationsOf_dict db pid : affiliationsOf db pid = (affiliations_dict db pid).*2.
Proof. reflexivity. Qed.

Lemma student_affiliations_spec db pid :
  let d := student_affiliations db pid in
  NoDup d.*1 ∧ Forall student_entry d.*2 ∧
  (∀ sc sid yr, (sc, sid, yr) ∈ student_rows db pid → truthy sc = true →
     school_key sc sid ∈ d.*1).
Proof.
  destruct (foldl_add_student (student_rows db pid) []) as (Hnd & Hst & _ & Hkey).
  - apply NoDup_nil_2.
  - apply Forall_nil_2.
  - done.
Qed.

(** C10.  Every entry that [get_person_affiliations] returns has
    [student] or [faculty] set and carries a non-empty school name. *)
Theorem affiliations_flagged_and_named (db : Store) (person_id : list N) (a : Affiliation) :
  a ∈ affiliationsOf db person_id →
  (student a = true ∨ faculty a = true) ∧ aff_school a ≠ [].
Proof.
  rewrite affiliationsOf_dict. unfold affiliations_dict.
  destruct (student_affiliations_spec db person_id) as (Hnd & Hst & _).
  destruct (foldl_add_faculty (faculty_rows db person_id)
              (student_affiliations db person_id)) as [_ Hok]; [done| |].
  { eapply Forall_impl; [exact Hst|]. apply student_entry_ok. }
  intros Ha. by apply (proj1 (Forall_forall _ _) Hok).
Qed.

Lemma affiliations_flagged_and_named_witness :
  campus_entry ∈ affiliationsOf campus (u "P") ∧
  (student campus_entry = true ∨ faculty campus_entry = true) ∧
  aff_school campus_entry ≠ [].
Proof.
  split; [by_evaluation|].
  apply (affiliations_flagged_and_named campus (u "P")). by_evaluation.
Defined.

Example campus_affiliations :
  affiliationsOf campus (u "P")
  = [campus_entry; mkAffiliation (u "Y College") false true None].
Proof. vm_compute. reflexivity. Qed.

Lemma existsb_elem {A} (f : A → bool) (l : list A) x :
  x ∈ l → f x = true → existsb f l = true.
Proof.
  induction 1 as [|y z l _ IH]; simpl; intros Hx.
  - by rewrite Hx.
  - rewrite IH by done. apply orb_true_r.
Qed.

(** C6.  A person wrote a dissertation [d1] at a school and is an advisor
    (row [a]) on a dissertation [d2] at a school with the same key, both
    rows naming their school.  Then the dict holds the key exactly once:
    the entry that the student loop created at position [i] is the one the
    faculty loop marks, it keeps its position, and it is returned with
    [student] and [faculty] both set. *)
Theorem student_and_faculty_one_entry (db : Store) (person_id : list N)
    (d1 d2 : Dissertation) (a : Advisor) :
  d1 ∈ dissertations db → author_id d1 = person_id → school d1 ≠ [] →
  a ∈ advisors db → advisor_id a = person_id →
  d2 ∈ dissertations db → dissertation_id d2 = adv_dissertation_id a →
  school d2 ≠ [] →
  school_key (school d2) (school_id d2) = school_key (school d1) (school_id d1) →
  ∃ i e,
    student_affiliations db person_id !! i
      = Some (school_key (school d1) (school_id d1), e) ∧
    student e = true ∧ faculty e = false ∧
    affiliations_dict db person_id !! i
      = Some (school_key (school d1) (school_id d1),
              mkAffiliation (aff_school e) true true (aff_year e)) ∧
    affiliationsOf db person_id !! i
      = Some (mkAffiliation (aff_school e) true true (aff_year e)) ∧
    ∀ j e', affiliations_dict db person_id !! j
              = Some (school_key (school d1) (school_id d1), e') → j = i.
Proof.
  intros Hd1 Hau Hs1 Ha Had Hd2 Hid Hs2 Hkey.
  set (k := school_key (school d1) (school_id d1)) in *.
  destruct (student_affiliations_spec db person_id) as (Hnd & Hst & Hin).
  assert (Hk : k ∈ (student_affiliations db person_id).*1).
  { apply (Hin _ _ (year d1)); [|by apply truthy_nonempty].
    unfold student_rows. apply distinct_complete, list_elem_of_fmap.
    exists d1. split; [done|]. by apply list_elem_of_filter. }
  apply list_elem_of_lookup in Hk as [i Hi].
  apply list_lookup_fmap_Some in Hi as ([k' e] & Hk' & Hi). simpl in Hk'. subst k'.
  assert (He : student_entry e).
  { apply (proj1 (Forall_forall _ _) Hst), list_elem_of_lookup.
    exists i. by rewrite list_lookup_fmap, Hi. }
  destruct He as (Hstu & Hfac & _).
  assert (Hdict : affiliations_dict db person_id !! i = Some (k, set_faculty e)).
  { unfold affiliations_dict.
    rewrite (foldl_add_faculty_lookup _ _ _ _ _ Hi).
    rewrite (existsb_elem _ _ (school d2, school_id d2)); [done| |].
    - unfold faculty_rows. apply distinct_complete, list_elem_of_fmap.
      exists d2. split; [done|]. unfold advised_dissertations.
      apply list_elem_of_bind. exists a. split; by apply list_elem_of_filter.
    - unfold row_hits. simpl. apply andb_true_intro. split.
      + by apply truthy_nonempty.
      + by apply bool_decide_eq_true_2. }
  assert (Hset : set_faculty e = mkAffiliation (aff_school e) true true (aff_year e)).
  { unfold set_faculty. by rewrite Hstu. }
  rewrite Hset in Hdict.
  exists i, e. repeat split; [done..| |].
  - by rewrite affiliationsOf_dict, list_lookup_fmap, Hdict.
  - intros j e' Hj.
    destruct (foldl_add_faculty (faculty_rows db person_id)
                (student_affiliations db person_id)) as [Hnd' _]; [done| |].
    { eapply Forall_impl; [exact Hst|]. apply student_entry_ok. }
    apply (NoDup_lookup _ j i k Hnd').
    + fold (affiliations_dict db person_id). by rewrite list_lookup_fmap, Hj.
    + fold (affiliations_dict db person_id). by rewrite list_lookup_fmap, Hdict.
Qed.

(** ** Text: trimming, splitting, [LIKE] *)

Lemma substring_refl (s : list N) : substring s s.
Proof. exists [], []. by rewrite app_nil_r. Qed.

Lemma substring_trans (a b c : list N) : substring a b → substring b c → substring a c.
Proof.
  intros (p1 & q1 & ->) (p2 & q2 & ->). exists (p2 ++ p1), (q1 ++ q2).
  by rewrite <- !(assoc_L (++)).
Qed.

Lemma substring_elem (t s : list N) c : substring t s → c ∈ t → c ∈ s.
Proof. intros (pre & post & ->) Hc. rewrite !elem_of_app. auto. Qed.

Lemma substring_fmap (f : N → N) (t s : list N) :
  substring t s → substring (f <$> t) (f <$> s).
Proof. intros (pre & post & ->). exists (f <$> pre), (f <$> post). by rewrite !fmap_app. Qed.

Lemma wildcard_free_substring (t s : list N) :
  substring t s → wildcard_free s → wildcard_free t.
Proof. intros Hts [H1 H2]. split; intros Hc; [apply H1|apply H2]; by eapply substring_elem. Qed.

Section TextFacts.
Context {ucd : UnicodeData}.

Lemma lstrip_suffix (s : list N) : ∃ pre, s = pre ++ lstrip s.
Proof.
  induction s as [|c s [pre IH]]; simpl; [by exists []|].
  destruct (isspace c); [|by exists []].
  exists (c :: pre). simpl. by rewrite <- IH.
Qed.

Lemma rstrip_prefix (s : list N) : ∃ post, s = rstrip s ++ post.
Proof.
  unfold rstrip. destruct (lstrip_suffix (reverse s)) as [pre Hpre].
  exists (reverse pre). rewrite <- reverse_app, <- Hpre. by rewrite reverse_involutive.
Qed.

Lemma strip_substring (s : list N) : substring (strip s) s.
Proof.
  unfold strip. destruct (lstrip_suffix s) as [pre Hpre].
  destruct (rstrip_prefix (lstrip s)) as [post Hpost].
  exists pre, post. by rewrite <- Hpost.
Qed.

Lemma split_from_substring (word s t : list N) :
  t ∈ split_from word s → substring t (word ++ s).
Proof.
  revert word. induction s as [|c s IH]; intros word; simpl.
  - destruct (truthy word); intros Ht; [|by apply elem_of_nil in Ht].
    apply list_elem_of_singleton in Ht as ->. rewrite app_nil_r. apply substring_refl.
  - destruct (isspace c).
    + assert (Hs : t ∈ split_from [] s → substring t (word ++ c :: s)).
      { intros Ht. destruct (IH [] Ht) as (pre & post & Hs). simpl in Hs.
        exists (word ++ c :: pre), post. rewrite Hs.
        by rewrite <- (assoc_L (++)). }
      destruct (truthy word); [|done].
      intros Ht. apply elem_of_cons in Ht as [->|Ht]; [|by apply Hs].
      exists [], (c :: s). done.
    + intros Ht. apply IH in Ht. by rewrite <- (assoc_L (++)) in Ht.
Qed.

Lemma name_parts_substring (q t : list N) : t ∈ name_parts_of q → substring t q.
Proof.
  unfold name_parts_of, split. intros Ht.
  apply list_elem_of_fmap in Ht as (part & -> & Hpart).
  apply list_elem_of_filter in Hpart as [_ Hpart].
  apply split_from_substring in Hpart. simpl in Hpart.
  eapply substring_trans; [apply strip_substring|done].
Qed.

End TextFacts.

Lemma any_suffix_true (f : list N → bool) (s : list N) :
  any_suffix f s = true ↔ ∃ pre post, s = pre ++ post ∧ f post = true.
Proof.
  induction s as [|c s IH]; simpl.
  - rewrite orb_false_r. split.
    + intros Hf. by exists [], [].
    + intros (pre & post & Hs & Hf). symmetry in Hs.
      apply app_eq_nil in Hs as [_ ->]. done.
  - rewrite orb_true_iff, IH. split.
    + intros [Hf|(pre & post & -> & Hf)].
      * by exists [], (c :: s).
      * by exists (c :: pre), post.
    + intros ([|c' pre] & post & Hs & Hf); simpl in Hs.
      * left. by subst.
      * right. injection Hs as -> ->. by exists pre, post.
Qed.

Lemma any_suffix_here (f : list N → bool) (s : list N) :
  f s = true → any_suffix f s = true.
Proof. intros Hf. destruct s; simpl; by rewrite Hf. Qed.





(** A pattern matches its own text, wildcards and all. *)
Lemma pattern_compare_own_text (t post : list N) :
  pattern_compare (t ++ [37%N]) (t ++ post) = true.
Proof.
  induction t as [|c t IH].
  - simpl. apply any_suffix_true. exists post, []. by rewrite app_nil_r.
  - cbn [app pattern_compare]. destruct (c =? 37)%N eqn:E.
    + simpl. rewrite (any_suffix_here _ _ IH). apply orb_true_r.
    + rewrite N.eqb_refl, orb_true_r. by rewrite IH.
Qed.

Lemma pattern_compare_substring (t s : list N) :
  substring t s → pattern_compare (contains_pattern t) s = true.
Proof.
  intros (pre & post & ->). unfold contains_pattern. cbn [app pattern_compare].
  rewrite N.eqb_refl. apply any_suffix_true. exists pre, (t ++ post).
  split; [done|]. apply pattern_compare_own_text.
Qed.


Lemma c_string_plain (s : list N) : 0%N ∉ s → c_string s = s.
Proof.
  induction s as [|c s IH]; [done|]. intros Hs.
  apply not_elem_of_cons in Hs as [Hc Hs]. simpl.
  rewrite (proj2 (N.eqb_neq c 0)) by done. by rewrite IH.
Qed.

Lemma contains_pattern_plain (t : list N) : 0%N ∉ t → 0%N ∉ contains_pattern t.
Proof.
  intros Ht. unfold contains_pattern. simpl.
  rewrite not_elem_of_cons, not_elem_of_app, not_elem_of_cons.
  repeat split; [done|done|done|apply not_elem_of_nil].
Qed.




(** A text without U+0000 is matched by [%t%] for each of its runs. *)
Lemma like_substring (t s : list N) :
  substring t s → 0%N ∉ s → like (contains_pattern t) s = true.
Proof.
  intros Hts Hplain. unfold like.
  rewrite (c_string_plain s Hplain), c_string_plain.
  - by apply pattern_compare_substring.
  - apply contains_pattern_plain. intros Hin. apply Hplain.
    by eapply substring_elem.
Qed.

(** Every text is matched by the pattern made of itself. *)
Lemma c_string_own_text (t : list N) :
  pattern_compare (c_string (t ++ [37%N])) (c_string t) = true.
Proof.
  induction t as [|c t IH]; [done|]. cbn [app c_string].
  destruct (c =? 0)%N eqn:E0; [done|]. cbn [pattern_compare].
  destruct (c =? 37)%N.
  - simpl. rewrite (any_suffix_here _ _ IH). apply orb_true_r.
  - by rewrite N.eqb_refl, orb_true_r, IH.
Qed.

Lemma like_own_text (t : list N) : like (contains_pattern t) t = true.
Proof.
  unfold like, contains_pattern. cbn [app c_string N.eqb pattern_compare].
  apply any_suffix_here, c_string_own_text.
Qed.

Lemma utf8_length_app (a b : list N) :
  utf8_length (a ++ b) = (utf8_length a + utf8_length b)%N.
Proof.
  induction a as [|c a IH]; [done|]. simpl. rewrite IH. lia.
Qed.

Lemma utf8_length_substring (t q : list N) :
  substring t q →
  (utf8_length (contains_pattern t) ≤ utf8_length (contains_pattern q))%N.
Proof.
  intros (pre & post & ->). unfold contains_pattern.
  rewrite !utf8_length_app. lia.
Qed.

(** What the two scans return. *)
Lemma select_where_Some {A} (cond : A → option bool) (rows selected : list A) :
  select_where cond rows = Some selected →
  selected = filter (λ r, cond r = Some true) rows ∧
  ∀ r, r ∈ rows → is_Some (cond r).
Proof.
  revert selected. induction rows as [|r rows IH]; intros selected; simpl.
  - intros [= <-]. split; [done|]. intros r Hr. by apply elem_of_nil in Hr.
  - destruct (cond r) as [b|] eqn:E; [|done].
    destruct (select_where cond rows) as [sel|]; [|done].
    intros [= <-]. destruct (IH sel eq_refl) as [-> Hall]. split.
    + rewrite filter_cons, E. destruct b.
      * by rewrite decide_True.
      * by rewrite decide_False.
    + intros r' Hr'. apply elem_of_cons in Hr' as [->|Hr']; [by rewrite E|by apply Hall].
Qed.

Lemma select_where_defined {A} (cond : A → option bool) (rows : list A) :
  (∀ r, r ∈ rows → is_Some (cond r)) → is_Some (select_where cond rows).
Proof.
  induction rows as [|r rows IH]; intros Hall; simpl; [done|].
  destruct (Hall r) as [b ->]; [left|].
  destruct IH as [sel ->]; [|done].
  intros r' Hr'. apply Hall. by right.
Qed.

Lemma first_where_found {A} (cond : A → option bool) (rows : list A) (r : A) :
  first_where cond rows = Some (Some r) →
  ∃ earlier later, rows = earlier ++ r :: later ∧ cond r = Some true ∧
                   ∀ r', r' ∈ earlier → cond r' = Some false.
Proof.
  induction rows as [|r0 rows IH]; simpl; [done|].
  destruct (cond r0) as [[|]|] eqn:E; [| |done].
  - intros [= <-]. exists [], rows. split; [done|]. split; [done|].
    intros r' Hr'. by apply elem_of_nil in Hr'.
  - intros Hf. destruct (IH Hf) as (earlier & later & -> & Hr & Hearlier).
    exists (r0 :: earlier), later. split; [done|]. split; [done|].
    intros r' Hr'. apply elem_of_cons in Hr' as [->|Hr']; [done|by apply Hearlier].
Qed.



(** ** Search matcher *)

Lemma mapM_IO_value {A B} (f : A → IO B) (l : list A) :
  (mapM f l).2 = (λ x, (f x).2) <$> l.
Proof. induction l as [|x l IH]; [done|]. cbn. by rewrite <- IH. Qed.

Lemma mapM_IO_trace {A B} (f : A → IO B) (l : list A) :
  (mapM f l).1 = l ≫= (λ x, (f x).1).
Proof.
  induction l as [|x l IH]; [done|]. cbn. rewrite <- IH.
  unfold mbind, IO_bind, mret, IO_ret. simpl. by rewrite app_nil_r.
Qed.

Lemma str_leb_total (a b : list N) : str_leb a b = true ∨ str_leb b a = true.
Proof.
  revert b. induction a as [|x a IH]; intros [|y b]; simpl; auto.
  destruct (N.lt_trichotomy x y) as [Hlt|[->|Hgt]].
  - left. by rewrite (proj2 (N.ltb_lt _ _) Hlt).
  - rewrite N.eqb_refl, N.ltb_irrefl. simpl. apply IH.
  - right. by rewrite (proj2 (N.ltb_lt _ _) Hgt).
Qed.

#[global] Instance str_le_total : Total str_le.
Proof. intros a b. apply str_leb_total. Qed.

#[global] Instance by_name_total {A} (f : A → list N) :
  Total (λ x y, str_le (f x) (f y)).
Proof. intros x y. apply str_le_total. Qed.

Section SearchFacts.
Context {ucd : UnicodeData} {limits : SqliteLimits} {order : SetOrder}.

Lemma result_row_value db p : (result_row db p).2 = result_of db p.
Proof. reflexivity. Qed.


Lemma where_all_within (patterns : list (list N)) (text : list N) :
  (∀ pat, pat ∈ patterns → (utf8_length pat ≤ like_pattern_length)%N) →
  where_all patterns text = Some (forallb (λ pat, like pat text) patterns).
Proof.
  induction patterns as [|pattern rest IH]; intros Hall; simpl; [done|].
  unfold likeFunc. rewrite decide_False.
  - destruct (like pattern text); simpl; [|done].
    apply IH. intros pat Hpat. apply Hall. by right.
  - assert (utf8_length pattern ≤ like_pattern_length)%N by (apply Hall; left). lia.
Qed.


Lemma people_like_within db (patterns : list (list N)) :
  (∀ pat, pat ∈ patterns → (utf8_length pat ≤ like_pattern_length)%N) →
  ∃ rows, people_like db patterns = Some rows ∧
    ∀ p, p ∈ people db →
      (∀ pat, pat ∈ patterns → like pat (name_normalized p) = true) → p ∈ rows.
Proof.
  intros Hall. unfold people_like.
  destruct (select_where_defined (λ p, where_all patterns (name_normalized p))
              (people db)) as [sel E].
  { intros p _. rewrite where_all_within by done. by eexists. }
  rewrite E. eexists. split; [done|]. intros p Hp Hlike.
  rewrite merge_sort_Permutation. apply select_where_Some in E as [-> _].
  apply list_elem_of_filter. split; [|done]. rewrite where_all_within by done.
  f_equal. apply forallb_forall. intros pat Hpat. apply Hlike.
  by apply list_elem_of_In.
Qed.

Lemma searchByName_value db name_query :
  (searchByName db name_query).2
  = (λ rows : list Person, result_of db <$> rows) <$> name_rows db name_query.
Proof.
  unfold searchByName, name_rows. case_decide; [done|].
  unfold mbind, IO_bind, execute. cbn [fst snd].
  destruct (if statement_refused _ then None else _) as [rows|].
  - cbn. by rewrite mapM_IO_value.
  - destruct (people_like db [_]) as [rows|]; cbn; [by rewrite mapM_IO_value|done].
Qed.



(** C8.  When both fields are blank after trimming, [search] answers with
    the input error and its record of store accesses is empty: no
    connection is opened and no statement runs, whatever the store. *)
Theorem empty_query_rejected (db : Store) (name_search school_search : list N) :
  strip name_search = [] → strip school_search = [] →
  search db name_search school_search = ([], render_error please_enter).
Proof. intros Hn Hs. unfold search. by rewrite Hn, Hs. Qed.

(** C9.  When the name field is not blank, [search] runs the name branch
    only: the store accesses and the list of results are those of the name
    search, the same as for the request with the school field left empty;
    the school query reaches the response only as the text that is shown
    back in the form.  When the name search raises, both requests end
    with the same accesses and the same server error. *)
Theorem school_query_ignored (db : Store) (name_search school_search : list N) :
  strip name_search ≠ [] →
  let found := searchByName db (strip name_search) in
  let reply school_query :=
    match found.2 with
    | Some results =>
        ([Connect] ++ found.1 ++ [Close],
         render_results results (strip name_search) school_query)
    | None => ([Connect] ++ found.1, internal_server_error)
    end in
  search db name_search school_search = reply (strip school_search) ∧
  search db name_search [] = reply [].
Proof.
  intros Hn found reply. apply truthy_nonempty in Hn. unfold search.
  rewrite Hn. subst reply found.
  destruct (searchByName db (strip name_search)) as [trace [results|]];
    split; cbn; by rewrite ?app_nil_r.
Qed.

End SearchFacts.

Lemma distinct_elem `{EqDecision A} (l : list A) x : x ∈ distinct l ↔ x ∈ l.
Proof. split; [apply distinct_from_subseteq|apply distinct_complete]. Qed.

Section SchoolFacts.
Context {ucd : UnicodeData} {limits : SqliteLimits} {order : SetOrder}.

Lemma searchBySchool_value db school_query :
  (searchBySchool db school_query).2
  = (λ row : option School,
       (λ s, merge_sort (λ x y, str_le (res_name x) (res_name y))
               (school_results db s)) <$> row)
    <$> find_school db (normalize_search_text school_query).
Proof.
  unfold searchBySchool, school_results, mbind, IO_bind, execute. cbn [fst snd].
  destruct (find_school db _) as [[s|]|];
    cbn [fst snd fmap option_fmap option_map mret IO_ret]; [|done|done].
  by rewrite mapM_IO_value.
Qed.

Lemma likeFunc_within (pattern text : list N) :
  (utf8_length pattern ≤ like_pattern_length)%N →
  likeFunc pattern text = Some (like pattern text).
Proof. intros Hlen. unfold likeFunc. rewrite decide_False; [done|lia]. Qed.

Lemma likeFunc_true (pattern text : list N) :
  likeFunc pattern text = Some true → like pattern text = true.
Proof. unfold likeFunc. case_decide; [done|]. by intros [= ->]. Qed.

Lemma likeFunc_false (pattern text : list N) :
  likeFunc pattern text = Some false → like pattern text = false.
Proof. unfold likeFunc. case_decide; [done|]. by intros [= ->]. Qed.

Lemma find_school_found db (q : list N) (s : School) :
  find_school db q = Some (Some s) →
  ∃ earlier later,
    schools db = earlier ++ s :: later ∧
    like (contains_pattern q) (school_name_normalized s) = true ∧
    ∀ s', s' ∈ earlier → like (contains_pattern q) (school_name_normalized s') = false.
Proof.
  unfold find_school. intros Hf.
  apply first_where_found in Hf as (earlier & later & Hs & Hlike & Hearlier).
  exists earlier, later. split; [done|]. split; [by apply likeFunc_true|].
  intros s' Hs'. by apply likeFunc_false, Hearlier.
Qed.


Lemma find_school_some db (q : list N) (s0 : School) :
  (utf8_length (contains_pattern q) ≤ like_pattern_length)%N →
  s0 ∈ schools db → like (contains_pattern q) (school_name_normalized s0) = true →
  ∃ s, find_school db q = Some (Some s).
Proof.
  unfold find_school. intros Hlen Hs0 Hlike.
  induction (schools db) as [|s l IH]; [by apply elem_of_nil in Hs0|]. simpl.
  rewrite likeFunc_within by done.
  destruct (like (contains_pattern q) (school_name_normalized s)) eqn:E; [by eexists|].
  apply IH. apply elem_of_cons in Hs0 as [->|Hs0]; [congruence|done].
Qed.









Lemma search_school_value db name_search school_search :
  strip name_search = [] → strip school_search ≠ [] →
  (search db name_search school_search).2
  = match (searchBySchool db (strip school_search)).2 with
    | None => internal_server_error
    | Some None => render_error university_not_found
    | Some (Some results) => render_results results [] (strip school_search)
    end.
Proof.
  intros Hn Hs. apply truthy_nonempty in Hs. unfold search.
  rewrite Hn, Hs. cbn [truthy negb andb].
  unfold mbind, IO_bind, connect. cbn [fst snd].
  by destruct (searchBySchool db (strip school_search)).2 as [[results|]|].
Qed.


End SchoolFacts.

(** ** Text normalizer *)

Section NormalizerFacts.
Context {ucd : UnicodeData}.

Lemma reorder_insert_Permutation c (s : list N) : reorder_insert c s ≡ₚ c :: s.
Proof.
  induction s as [|d s IH]; simpl; [done|].
  case_decide; [|done]. rewrite IH. apply Permutation_swap.
Qed.

Lemma canonical_order_Permutation (s : list N) : canonical_order s ≡ₚ s.
Proof.
  induction s as [|c s IH]; simpl; [done|].
  by rewrite reorder_insert_Permutation, IH.
Qed.

Lemma canonical_order_starters (s : list N) :
  Forall (λ c, combining c = 0) s → canonical_order s = s.
Proof.
  induction 1 as [|c s Hc _ IH]; simpl; [done|]. rewrite IH.
  destruct s as [|d s]; simpl; [done|].
  rewrite decide_False; [done|lia].
Qed.

Lemma decomposition_plain (s : list N) :
  Forall (λ c, decomposition c = [c]) s → s ≫= decomposition = s.
Proof. induction 1 as [|c s Hc _ IH]; [done|]. cbn. by rewrite Hc, IH. Qed.

Lemma filter_plain (s : list N) :
  Forall (λ c, category_Mn c = false) s →
  filter (λ c, category_Mn c = false) s = s.
Proof.
  induction 1 as [|c s Hc _ IH]; [done|].
  by rewrite filter_cons, decide_True, IH.
Qed.

Lemma lstrip_head (s : list N) :
  lstrip s = [] ∨ ∃ c s', lstrip s = c :: s' ∧ isspace c = false.
Proof.
  induction s as [|c s IH]; simpl; [by left|].
  destruct (isspace c) eqn:E; [done|]. right. by exists c, s.
Qed.

Lemma lstrip_fixed c (s : list N) : isspace c = false → lstrip (c :: s) = c :: s.
Proof. intros E. simpl. by rewrite E. Qed.

Lemma lstrip_idemp (s : list N) : lstrip (lstrip s) = lstrip s.
Proof.
  destruct (lstrip_head s) as [->|(c & s' & -> & E)]; [done|].
  by apply lstrip_fixed.
Qed.

Lemma rstrip_idemp (s : list N) : rstrip (rstrip s) = rstrip s.
Proof. unfold rstrip. by rewrite reverse_involutive, lstrip_idemp. Qed.

Lemma strip_idemp (s : list N) : strip (strip s) = strip s.
Proof.
  unfold strip.
  assert (Hl : lstrip (rstrip (lstrip s)) = rstrip (lstrip s)).
  { destruct (rstrip_prefix (lstrip s)) as [post Hpost].
    destruct (rstrip (lstrip s)) as [|c r] eqn:E; [done|].
    destruct (lstrip_head s) as [Hs|(c' & s' & Hs & Hc)]; rewrite Hs in Hpost.
    - done.
    - injection Hpost as -> _. by apply lstrip_fixed. }
  by rewrite Hl, rstrip_idemp.
Qed.

Lemma strip_Forall (P : N → Prop) (s : list N) : Forall P s → Forall P (strip s).
Proof.
  rewrite !Forall_forall. intros Hs c Hc. apply Hs.
  by eapply substring_elem; [apply strip_substring|].
Qed.

(** A string of plain, lowered characters without white space at its ends
    is its own normalization. *)
Lemma normalize_fixed `{!UnicodeLaws} (y : list N) :
  Forall plain y → Forall lowered y → strip y = y →
  normalize_search_text y = y.
Proof.
  intros Hplain Hlow Hstrip. unfold normalize_search_text, normalize_NFD.
  destruct (truthy y) eqn:E; [|by destruct y].
  rewrite decomposition_plain, canonical_order_starters, filter_plain.
  - by rewrite (lower_fixed _ Hlow).
  - eapply Forall_impl; [exact Hplain|]. by intros c (_ & ? & _).
  - eapply Forall_impl; [exact Hplain|]. by intros c (_ & _ & ?).
  - eapply Forall_impl; [exact Hplain|]. by intros c (? & _ & _).
Qed.

End NormalizerFacts.

Lemma sample_lower_char_idemp c :
  sample_lower_char (sample_lower_char c) = sample_lower_char c.
Proof. unfold sample_lower_char. repeat case_decide; lia. Qed.

Lemma sample_lower_char_plain c :
  plain (ucd := sample_unicode) c → plain (ucd := sample_unicode) (sample_lower_char c).
Proof.
  unfold plain. cbn. intros (Hd & Hm & Hc).
  unfold sample_lower_char. case_decide as Hup; [|case_decide as He; [|done]].
  - unfold sample_decomposition, sample_Mn, sample_combining.
    rewrite bool_decide_eq_false_2 by lia.
    repeat (rewrite decide_False by lia). done.
  - subst c. by vm_compute in Hd.
Qed.

Lemma sample_laws : UnicodeLaws (ucd := sample_unicode).
Proof.
  split; cbn.
  - intros c d. unfold sample_decomposition at 1. repeat case_decide; subst.
    + intros Hd. apply elem_of_cons in Hd as [->|Hd]; [done|].
      by apply list_elem_of_singleton in Hd as ->.
    + intros Hd. apply elem_of_cons in Hd as [->|Hd]; [done|].
      by apply list_elem_of_singleton in Hd as ->.
    + intros Hd. apply list_elem_of_singleton in Hd as ->.
      unfold sample_decomposition. by rewrite !decide_False.
  - intros s Hs. apply Forall_fmap. eapply Forall_impl; [exact Hs|].
    apply sample_lower_char_plain.
  - intros s. apply Forall_fmap, Forall_forall. intros c _.
    unfold lowered. cbn. by rewrite sample_lower_char_idemp.
  - intros s Hs. induction Hs as [|c s Hc _ IH]; [done|].
    unfold lowered in Hc. cbn in *. injection Hc as Hc. by rewrite Hc, IH.
Qed.

(** C5, as the code has it.  With the character data of the runtime
    obeying [UnicodeLaws], [normalize_search_text] applied twice gives the
    same as applied once on every string whose canonical decomposition
    holds, besides non-spacing marks, only characters of combining class 0;
    and "Émile" and "emile" both normalize to "emile". *)
Theorem normalize_idempotent (ucd : UnicodeData) (laws : UnicodeLaws) (x : list N) :
  (Forall (λ c, category_Mn c = true ∨ combining c = 0) (x ≫= decomposition) →
   normalize_search_text (normalize_search_text x) = normalize_search_text x) ∧
  normalize_search_text (ucd := sample_unicode) Emile = u "emile" ∧
  normalize_search_text (ucd := sample_unicode) (u "emile") = u "emile".
Proof.
  split; [|by vm_compute].
  intros Hx. unfold normalize_search_text at 2 3.
  destruct (truthy x); [|done]. unfold normalize_NFD.
  set (k := filter (λ c, category_Mn c = false) (canonical_order (x ≫= decomposition))).
  assert (Hk : Forall plain k).
  { apply Forall_forall. intros c Hc. subst k.
    apply list_elem_of_filter in Hc as [Hmn Hc].
    rewrite canonical_order_Permutation in Hc.
    split; [|split; [done|]].
    - apply list_elem_of_bind in Hc as (c0 & Hc & _). by eapply decomposition_full.
    - destruct (proj1 (Forall_forall _ _) Hx c Hc) as [Hmn'|]; [congruence|done]. }
  apply normalize_fixed.
  - by apply strip_Forall, lower_plain.
  - apply strip_Forall, lower_lowered.
  - apply strip_idemp.
Qed.

Section Samples.
#[local] Existing Instance sample_unicode.
#[local] Existing Instance sample_limits.
#[local] Existing Instance sample_order.

Lemma normalize_idempotent_witness :
  Forall (λ c, category_Mn c = true ∨ combining c = 0) (Emile ≫= decomposition) ∧
  normalize_search_text (normalize_search_text Emile) = normalize_search_text Emile.
Proof.
  split; [by_evaluation|].
  apply (proj1 (normalize_idempotent sample_unicode sample_laws Emile)). by_evaluation.
Defined.

(** C5 as stated fails: the grapheme joiner (a non-spacing mark of class
    0) keeps the dot (class 226) and the stem (class 216) apart; once it is
    removed, the second normalization puts the stem before the dot. *)
Lemma normalize_not_idempotent :
  normalize_search_text dotted_stem = [0x1D16D; 0x1D165]%N ∧
  normalize_search_text (normalize_search_text dotted_stem) = [0x1D165; 0x1D16D]%N ∧
  normalize_search_text (normalize_search_text dotted_stem)
  ≠ normalize_search_text dotted_stem.
Proof. by vm_compute. Qed.

Lemma student_and_faculty_one_entry_witness :
  (thesis_P ∈ dissertations campus ∧ author_id thesis_P = u "P" ∧
   school thesis_P ≠ [] ∧
   P_advises_Q ∈ advisors campus ∧ advisor_id P_advises_Q = u "P" ∧
   thesis_Q ∈ dissertations campus ∧
   dissertation_id thesis_Q = adv_dissertation_id P_advises_Q ∧
   school thesis_Q ≠ [] ∧
   school_key (school thesis_Q) (school_id thesis_Q)
   = school_key (school thesis_P) (school_id thesis_P)) ∧
  ∃ i e,
    student_affiliations campus (u "P") !! i
      = Some (school_key (school thesis_P) (school_id thesis_P), e) ∧
    student e = true ∧ faculty e = false ∧
    affiliations_dict campus (u "P") !! i
      = Some (school_key (school thesis_P) (school_id thesis_P),
              mkAffiliation (aff_school e) true true (aff_year e)) ∧
    affiliationsOf campus (u "P") !! i
      = Some (mkAffiliation (aff_school e) true true (aff_year e)) ∧
    ∀ j e', affiliations_dict campus (u "P") !! j
              = Some (school_key (school thesis_P) (school_id thesis_P), e') → j = i.
Proof.
  split; [repeat split; by_evaluation|].
  apply (student_and_faculty_one_entry campus (u "P") thesis_P thesis_Q P_advises_Q);
    by_evaluation.
Defined.

(** C6 as stated fails: P wrote a dissertation at the school with key sX
    and is an advisor on a dissertation with the same key, whose row has
    the school id and a blank school name.  The second loop skips that row
    ([if school:]), and the one entry for X University is returned with
    [faculty] false. *)
Lemma student_and_faculty_unnamed_school :
  thesis_P ∈ dissertations campus_unnamed ∧ author_id thesis_P = u "P" ∧
  P_advises_Q ∈ advisors campus_unnamed ∧ advisor_id P_advises_Q = u "P" ∧
  thesis_Q_unnamed ∈ dissertations campus_unnamed ∧
  dissertation_id thesis_Q_unnamed = adv_dissertation_id P_advises_Q ∧
  school_key (school thesis_Q_unnamed) (school_id thesis_Q_unnamed) = u "sX" ∧
  school_key (school thesis_P) (school_id thesis_P) = u "sX" ∧
  affiliationsOf campus_unnamed (u "P")
  = [mkAffiliation (u "X University") true false (Some (u "1990"))].
Proof. repeat split; by_evaluation. Qed.


Example name_search_any_order :
  name_parts_of (normalize_search_text (u "Ann Lee")) = [u "ann"; u "lee"] ∧
  (searchByName roster (u "Ann Lee")).2 = Some [result_of roster ann].
Proof. by vm_compute. Qed.




Lemma empty_query_rejected_witness :
  strip (u "  ") = [] ∧ strip [] = [] ∧
  search campus (u "  ") [] = ([], render_error please_enter).
Proof.
  assert (Hn : strip (u "  ") = []) by by_evaluation.
  assert (Hs : strip [] = []) by by_evaluation.
  split; [exact Hn|]. split; [exact Hs|].
  exact (empty_query_rejected campus (u "  ") [] Hn Hs).
Defined.

Lemma school_query_ignored_witness :
  strip (u "Ann Lee") ≠ [] ∧
  let found := searchByName roster (strip (u "Ann Lee")) in
  let reply school_query :=
    match found.2 with
    | Some results =>
        ([Connect] ++ found.1 ++ [Close],
         render_results results (strip (u "Ann Lee")) school_query)
    | None => ([Connect] ++ found.1, internal_server_error)
    end in
  search roster (u "Ann Lee") (u "mit") = reply (strip (u "mit")) ∧
  search roster (u "Ann Lee") [] = reply [].
Proof.
  assert (Hn : strip (u "Ann Lee") ≠ []) by by_evaluation.
  split; [exact Hn|].
  exact (school_query_ignored roster (u "Ann Lee") (u "mit") Hn).
Defined.

End Samples.

(** * More of [app.py] *)

(** ** Loading the CSV rows *)

Lemma insert_or_ignore_foldl {A} (key : A → list N) (l acc : list A) :
  NoDup (key <$> (acc ++ l)) →
  foldl (λ table x, insert_or_ignore key x table) acc l = acc ++ l.
Proof.
  revert acc. induction l as [|x l IH]; intros acc Hnd; simpl.
  - by rewrite app_nil_r.
  - unfold insert_or_ignore at 2. rewrite decide_False.
    + rewrite IH; rewrite <- (assoc_L (++)); done.
    + rewrite fmap_app, fmap_cons in Hnd.
      apply NoDup_app in Hnd as (_ & Hnot & _). intros Hin.
      apply (Hnot _ Hin). left.
Qed.

Section IngestionFacts.
Context {ucd : UnicodeData}.

Lemma row_get_stripped row key (v : list N) : row_get row key = Some v → strip v = v.
Proof.
  unfold row_get. destruct (row !! key) as [[w|]|]; intros [= <-]; apply strip_idemp.
Qed.

Lemma remember_person_spec pid pname pyears (people : list (list N * Person)) :
  NoDup people.*1 →
  Forall (λ kp, person_id kp.2 = kp.1 ∧ person_ok kp.2) people →
  pid ≠ [] → pname ≠ [] → strip pname = pname →
  let people' := remember_person pid pname pyears people in
  NoDup people'.*1 ∧
  Forall (λ kp, person_id kp.2 = kp.1 ∧ person_ok kp.2) people' ∧
  ∀ k, k ∈ people'.*1 ↔ k ∈ people.*1 ∨ k = pid.
Proof.
  intros Hnd Hok Hid Hname Hstrip. unfold remember_person.
  destruct (dict_get pid people) eqn:E; simpl.
  - split; [done|]. split; [done|]. intros k. split; [by left|].
    intros [?| ->]; [done|]. apply dict_get_Some. by rewrite E.
  - apply dict_get_None in E. unfold dict_add. rewrite fmap_app. simpl.
    split; [|split].
    + apply NoDup_app. split; [done|]. split; [|apply NoDup_singleton].
      intros k Hk Hk'. by apply list_elem_of_singleton in Hk' as ->.
    + apply Forall_app. split; [done|]. by apply Forall_singleton.
    + intros k. rewrite elem_of_app, list_elem_of_singleton. tauto.
Qed.

Lemma remember_school_spec sid sname (schools : list (list N * School)) :
  NoDup schools.*1 →
  Forall (λ ks, sch_school_id ks.2 = ks.1 ∧ school_ok ks.2) schools →
  sid ≠ [] → sname ≠ [] → strip sname = sname →
  let schools' := remember_school sid sname schools in
  NoDup schools'.*1 ∧
  Forall (λ ks, sch_school_id ks.2 = ks.1 ∧ school_ok ks.2) schools'.
Proof.
  intros Hnd Hok Hid Hname Hstrip. unfold remember_school.
  destruct (dict_get sid schools) eqn:E; simpl; [done|].
  apply dict_get_None in E. unfold dict_add. rewrite fmap_app. simpl. split.
  - apply NoDup_app. split; [done|]. split; [|apply NoDup_singleton].
    intros k Hk Hk'. by apply list_elem_of_singleton in Hk' as ->.
  - apply Forall_app. split; [done|]. by apply Forall_singleton.
Qed.

(** The first advisor loop: the dict stays well formed and gains exactly
    the advisors that the slots name. *)
Lemma advisor_people_spec row slots (people people' : list (list N * Person)) :
  advisor_people row slots people = Some people' →
  NoDup people.*1 →
  Forall (λ kp, person_id kp.2 = kp.1 ∧ person_ok kp.2) people →
  NoDup people'.*1 ∧
  Forall (λ kp, person_id kp.2 = kp.1 ∧ person_ok kp.2) people' ∧
  ∀ k, k ∈ people'.*1 ↔
       k ∈ people.*1 ∨
       (k ≠ [] ∧ k ≠ u "na" ∧
        ∃ i n, i ∈ slots ∧ row_get row (slot_key "Advisor_ID_" i) = Some k ∧
               row_get row (slot_key "Advisor_Name_" i) = Some n ∧ n ≠ []).
Proof.
  revert people. induction slots as [|i slots IH]; intros people; simpl.
  - intros [= <-] Hnd Hok. split; [done|]. split; [done|].
    intros k. split; [by left|]. intros [?|(_ & _ & i & n & Hi & _)]; [done|].
    by apply elem_of_nil in Hi.
  - destruct (row_get row (slot_key "Advisor_ID_" i)) as [aid|] eqn:Eid; [|done].
    destruct (row_get row (slot_key "Advisor_Name_" i)) as [aname|] eqn:Ename; [|done].
    simpl. intros Hrest Hnd Hok.
    destruct (truthy aid && truthy aname && negb (bool_decide (aid = u "na"))) eqn:Ec.
    + apply andb_true_iff in Ec as [Ec Hna]. apply andb_true_iff in Ec as [Hid Hname].
      apply truthy_nonempty in Hid, Hname.
      apply negb_true_iff, bool_decide_eq_false in Hna.
      destruct (remember_person_spec aid aname [] people Hnd Hok Hid Hname
                  (row_get_stripped _ _ _ Ename)) as (Hnd1 & Hok1 & Hk1).
      destruct (IH _ Hrest Hnd1 Hok1) as (Hnd2 & Hok2 & Hk2).
      split; [done|]. split; [done|]. intros k. rewrite Hk2, Hk1. split.
      * intros [[?| ->]|(? & ? & j & n & Hj & ?)]; [by left| |].
        -- right. split; [done|]. split; [done|]. exists i, aname.
           split; [left|done].
        -- right. split; [done|]. split; [done|]. exists j, n. split; [by right|done].
      * intros [?|(? & ? & j & n & Hj & Hjid & Hjn)]; [by left; left|].
        apply elem_of_cons in Hj as [->|Hj].
        -- left. right. congruence.
        -- right. split; [done|]. split; [done|]. by exists j, n.
    + destruct (IH _ Hrest Hnd Hok) as (Hnd2 & Hok2 & Hk2).
      split; [done|]. split; [done|]. intros k. rewrite Hk2. split.
      * intros [?|(? & ? & j & n & Hj & ?)]; [by left|].
        right. split; [done|]. split; [done|]. exists j, n. split; [by right|done].
      * intros [?|(Hk & Hkna & j & n & Hj & Hjid & Hjn & Hn)]; [by left|].
        apply elem_of_cons in Hj as [->|Hj].
        -- exfalso. rewrite Eid in Hjid. rewrite Ename in Hjn.
           injection Hjid as ->. injection Hjn as ->.
           apply truthy_nonempty in Hk, Hn. rewrite Hk, Hn in Ec. simpl in Ec.
           apply negb_false_iff, bool_decide_eq_true in Ec. done.
        -- right. split; [done|]. split; [done|]. by exists j, n.
Qed.

(** The second advisor loop only appends rows, each for the dissertation
    at hand and taken from one of the slots. *)
Lemma advisor_links_spec row did slots (table table' : list Advisor) :
  advisor_links row did slots table = Some table' →
  ∃ ext, table' = table ++ ext ∧
    Forall (λ a, adv_dissertation_id a = did ∧ advisor_id a ≠ [] ∧
                 advisor_id a ≠ u "na" ∧ advisor_number a ∈ slots ∧
                 row_get row (slot_key "Advisor_ID_" (advisor_number a))
                 = Some (advisor_id a) ∧
                 row_get row (slot_key "Advisor_Name_" (advisor_number a))
                 = Some (advisor_name a)) ext.
Proof.
  revert table. induction slots as [|i slots IH]; intros table; simpl.
  - intros [= <-]. exists []. by rewrite app_nil_r.
  - destruct (row_get row (slot_key "Advisor_ID_" i)) as [aid|] eqn:Eid; [|done].
    destruct (row_get row (slot_key "Advisor_Name_" i)) as [aname|] eqn:Ename; [|done].
    destruct (row_get row (slot_key "Advisor_Role_" i)) as [arole|] eqn:Erole; [|done].
    simpl. intros Hrest. apply IH in Hrest as (ext & -> & Hext).
    assert (Hext' : Forall (λ a, adv_dissertation_id a = did ∧ advisor_id a ≠ [] ∧
                 advisor_id a ≠ u "na" ∧ advisor_number a ∈ i :: slots ∧
                 row_get row (slot_key "Advisor_ID_" (advisor_number a))
                 = Some (advisor_id a) ∧
                 row_get row (slot_key "Advisor_Name_" (advisor_number a))
                 = Some (advisor_name a)) ext).
    { eapply Forall_impl; [exact Hext|]. intros a (? & ? & ? & ? & ? & ?).
      repeat split; [done..| |done|done]. by right. }
    destruct (truthy aid && negb (bool_decide (aid = u "na"))) eqn:Ec.
    + apply andb_true_iff in Ec as [Hid Hna]. apply truthy_nonempty in Hid.
      apply negb_true_iff, bool_decide_eq_false in Hna.
      exists (mkAdvisor did aid aname arole i :: ext).
      split; [by rewrite <- (assoc_L (++))|].
      apply Forall_cons. split; [|done]. simpl. repeat split; [done..|left|done|done].
    + by exists ext.
Qed.

Lemma insert_or_ignore_spec {A} (key : A → list N) (row : A) (table : list A) :
  NoDup (key <$> table) →
  NoDup (key <$> insert_or_ignore key row table) ∧
  key row ∈ key <$> insert_or_ignore key row table ∧
  ∃ ext, insert_or_ignore key row table = table ++ ext ∧ Forall (λ x, x = row) ext.
Proof.
  intros Hnd. unfold insert_or_ignore. case_decide as Hin.
  - split; [done|]. split; [done|]. exists []. by rewrite app_nil_r.
  - rewrite fmap_app. simpl. split; [|split].
    + apply NoDup_app. split; [done|]. split; [|apply NoDup_singleton].
      intros k Hk Hk'. by apply list_elem_of_singleton in Hk' as ->.
    + apply elem_of_app. right. left.
    + exists [row]. split; [done|]. by apply Forall_singleton.
Qed.

(** One row of the file keeps the tables well formed and adds to the
    people exactly those whom the row names. *)
Lemma load_row_spec t row t' :
  load_row t row = Some t' → tables_ok t →
  tables_ok t' ∧
  ∀ k, k ∈ (people_dict t').*1 ↔ k ∈ (people_dict t).*1 ∨ names_person row k.
Proof.
  unfold load_row.
  destruct (row_get row (u "Author_ID")) as [aid|] eqn:Eaid; [|done].
  destruct (row_get row (u "Author_Name")) as [aname|] eqn:Eaname; [|done].
  destruct (row_get row (u "Years")) as [yrs|] eqn:Eyrs; [|done].
  destruct (row_get row (u "School_ID")) as [sid|] eqn:Esid; [|done].
  destruct (row_get row (u "School")) as [sname|] eqn:Esname; [|done].
  cbn [mbind option_bind].
  set (people1 := if truthy aid && truthy aname
                  then remember_person aid aname yrs (people_dict t)
                  else people_dict t).
  set (schools1 := if truthy sid && truthy sname
                   then remember_school sid sname (schools_dict t)
                   else schools_dict t).
  destruct (advisor_people row (seq 1 8) people1) as [people2|] eqn:Epeople; [|done].
  destruct (row_get row (u "ID")) as [did|] eqn:Edid; [|done].
  cbn [mbind option_bind].
  intros Hload (Hp1 & Hp2 & Hs1 & Hs2 & Hd1 & Hd2 & Ha).
  (* the author *)
  assert (H1 : NoDup people1.*1 ∧
               Forall (λ kp, person_id kp.2 = kp.1 ∧ person_ok kp.2) people1 ∧
               ∀ k, k ∈ people1.*1 ↔
                    k ∈ (people_dict t).*1 ∨
                    (k = aid ∧ aid ≠ [] ∧ aname ≠ [])).
  { subst people1. destruct (truthy aid && truthy aname) eqn:Ec.
    - apply andb_true_iff in Ec as [Hid Hname]. apply truthy_nonempty in Hid, Hname.
      destruct (remember_person_spec aid aname yrs _ Hp1 Hp2 Hid Hname
                  (row_get_stripped _ _ _ Eaname)) as (? & ? & Hk).
      split; [done|]. split; [done|]. intros k. rewrite Hk. naive_solver.
    - split; [done|]. split; [done|]. intros k. split; [by left|].
      intros [?|(-> & Hid & Hname)]; [done|].
      apply truthy_nonempty in Hid, Hname. by rewrite Hid, Hname in Ec. }
  destruct H1 as (Hnd1 & Hok1 & Hk1).
  (* the school *)
  assert (H2 : NoDup schools1.*1 ∧
               Forall (λ ks, sch_school_id ks.2 = ks.1 ∧ school_ok ks.2) schools1).
  { subst schools1. destruct (truthy sid && truthy sname) eqn:Ec; [|done].
    apply andb_true_iff in Ec as [Hid Hname]. apply truthy_nonempty in Hid, Hname.
    apply remember_school_spec; [done..|]. by eapply row_get_stripped. }
  destruct H2 as (Hsnd & Hsok).
  (* the advisors as people *)
  destruct (advisor_people_spec _ _ _ _ Epeople Hnd1 Hok1) as (Hnd2 & Hok2 & Hk2).
  assert (Hkeys : ∀ k, k ∈ people2.*1 ↔ k ∈ (people_dict t).*1 ∨ names_person row k).
  { intros k. rewrite Hk2, Hk1. unfold names_person. split.
    - intros [[?|(-> & ? & ?)]|(? & ? & i & n & ?)]; [by left| |].
      + right. split; [done|]. left. split; [done|]. by exists aname.
      + right. split; [done|]. right. split; [done|]. by exists i, n.
    - intros [?|(Hk & [(Hid & n & Hn & Hne)|(Hna & i & n & ?)])]; [by left; left| |].
      + left. right. rewrite Eaid in Hid. rewrite Eaname in Hn.
        injection Hid as ->. injection Hn as ->. done.
      + right. split; [done|]. split; [done|]. by exists i, n. }
  assert (Hmono : ∀ k, k ∈ (people_dict t).*1 → k ∈ people2.*1).
  { intros k Hk. apply Hkeys. by left. }
  assert (Hold : Forall (λ d, dissertation_id d ≠ [] ∧
               (author_id d ≠ [] → author_name d ≠ [] → author_id d ∈ people2.*1))
             (dissertation_rows t)).
  { eapply Forall_impl; [exact Hd2|]. intros d [? Hd]. split; [done|]. auto. }
  destruct (truthy did) eqn:Etd.
  - destruct (row_get row (u "Title")) as [ttl|]; [|done].
    destruct (row_get row (u "Year")) as [yr|]; [|done].
    destruct (row_get row (u "Department")) as [dep|]; [|done].
    destruct (row_get row (u "Subject_broad")) as [subj|]; [|done].
    cbn [mbind option_bind] in Hload.
    destruct (advisor_links row did (seq 1 8) (advisor_rows t)) as [advs|] eqn:Elinks;
      [|done].
    injection Hload as <-. cbn [people_dict schools_dict dissertation_rows advisor_rows].
    split; [|done].
    set (d := mkDissertation did aid aname ttl yr sname sid dep subj).
    destruct (insert_or_ignore_spec dissertation_id d (dissertation_rows t) Hd1)
      as (Hnd' & Hin' & ext & Hext & Hrow).
    fold (insert_dissertation d (dissertation_rows t)) in Hnd', Hin', Hext.
    apply advisor_links_spec in Elinks as (new & -> & Hnew).
    unfold tables_ok. cbn [people_dict schools_dict dissertation_rows advisor_rows].
    do 5 (split; [done|]). split.
    + rewrite Hext. apply Forall_app. split; [done|].
      eapply Forall_impl; [exact Hrow|]. intros ? ->. simpl. split.
      * by apply truthy_nonempty.
      * intros Hid Hname. apply Hk2. left. apply Hk1. by right.
    + apply Forall_app. split.
      * eapply Forall_impl; [exact Ha|]. intros a (? & Hdid & Hname).
        split; [done|]. split; [|by auto].
        rewrite Hext, fmap_app. apply elem_of_app. by left.
      * eapply Forall_impl; [exact Hnew|].
        intros a (Hdid & Hid & Hna & Hslot & Hgid & Hgname).
        split; [|split].
        -- split; [done|]. split; [done|]. apply elem_of_seq in Hslot. lia.
        -- by rewrite Hdid.
        -- intros Hname. apply Hk2. right. split; [done|]. split; [done|].
           by exists (advisor_number a), (advisor_name a).
  - injection Hload as <-. cbn [people_dict schools_dict dissertation_rows advisor_rows].
    split; [|done]. unfold tables_ok.
    cbn [people_dict schools_dict dissertation_rows advisor_rows].
    do 5 (split; [done|]). split; [done|].
    eapply Forall_impl; [exact Ha|]. intros a (? & ? & ?). auto.
Qed.

Lemma load_rows_spec rows t t' :
  load_rows t rows = Some t' → tables_ok t →
  tables_ok t' ∧
  ∀ k, k ∈ (people_dict t').*1 ↔
       k ∈ (people_dict t).*1 ∨ ∃ row, row ∈ rows ∧ names_person row k.
Proof.
  revert t. induction rows as [|row rows IH]; intros t; simpl.
  - intros [= <-] Hok. split; [done|]. intros k. split; [by left|].
    intros [?|(row & Hrow & _)]; [done|]. by apply elem_of_nil in Hrow.
  - destruct (load_row t row) as [t1|] eqn:E; [|done]. simpl.
    intros Hrest Hok. destruct (load_row_spec _ _ _ E Hok) as [Hok1 Hk1].
    destruct (IH _ Hrest Hok1) as [Hok' Hk']. split; [done|].
    intros k. rewrite Hk', Hk1. split.
    + intros [[?|?]|(r & ? & ?)]; [by left|right; exists row|right; exists r];
        (split; [|done]); [left|by right].
    + intros [?|(r & Hr & ?)]; [by left; left|].
      apply elem_of_cons in Hr as [->|Hr]; [by left; right|right; by exists r].
Qed.

Lemma tables_ok_empty : tables_ok (mkTables [] [] [] []).
Proof.
  unfold tables_ok. simpl.
  repeat split; try apply NoDup_nil_2; apply Forall_nil_2.
Qed.

(** What [init_database] leaves in the store. *)
Lemma init_database_tables rows db :
  init_database rows = Some db →
  ∃ t, load_rows (mkTables [] [] [] []) rows = Some t ∧ tables_ok t ∧
       people db = (people_dict t).*2 ∧
       dissertations db = dissertation_rows t ∧
       advisors db = advisor_rows t ∧
       schools db = (schools_dict t).*2 ∧
       person_id <$> people db = (people_dict t).*1 ∧
       sch_school_id <$> schools db = (schools_dict t).*1.
Proof.
  unfold init_database.
  destruct (load_rows _ rows) as [t|] eqn:E; [|done]. simpl. intros [= <-].
  destruct (load_rows_spec _ _ _ E tables_ok_empty) as [Hok _].
  pose proof Hok as (Hp1 & Hp2 & Hs1 & Hs2 & _).
  assert (Hpk : person_id <$> (people_dict t).*2 = (people_dict t).*1).
  { rewrite <- list_fmap_compose. apply list_fmap_ext.
    intros i kp Hi. apply (proj1 (Forall_forall _ _) Hp2).
    apply list_elem_of_lookup. by exists i. }
  assert (Hsk : sch_school_id <$> (schools_dict t).*2 = (schools_dict t).*1).
  { rewrite <- list_fmap_compose. apply list_fmap_ext.
    intros i ks Hi. apply (proj1 (Forall_forall _ _) Hs2).
    apply list_elem_of_lookup. by exists i. }
  exists t. cbn [people dissertations advisors schools].
  rewrite !insert_or_ignore_foldl by (simpl; congruence). simpl.
  do 6 (split; [done|]). done.
Qed.

Lemma loaded_well_formed rows db :
  init_database rows = Some db →
  NoDup (person_id <$> people db) ∧ Forall person_ok (people db) ∧
  NoDup (sch_school_id <$> schools db) ∧ Forall school_ok (schools db).
Proof.
  intros Hdb.
  destruct (init_database_tables _ _ Hdb)
    as (t & _ & (Hp1 & Hp2 & Hs1 & Hs2 & _) & Hp & _ & _ & Hs & Hpk & Hsk).
  rewrite Hpk, Hsk, Hp, Hs. split; [done|]. split; [|split; [done|]].
  - apply Forall_fmap. eapply Forall_impl; [exact Hp2|]. by intros kp [_ ?].
  - apply Forall_fmap. eapply Forall_impl; [exact Hs2|]. by intros ks [_ ?].
Qed.

(** The [people] and [schools] tables after loading: ids are unique, no
    id or name is empty, names carry no white space at their ends, and the
    normalized column is [normalize_search_text] of the name. *)
Theorem loaded_people_and_schools rows db :
  init_database rows = Some db →
  NoDup (person_id <$> people db) ∧ Forall person_ok (people db) ∧
  NoDup (sch_school_id <$> schools db) ∧ Forall school_ok (schools db).
Proof. apply loaded_well_formed. Qed.

(** Who becomes a person: exactly the ids that some row names, with a
    name, as its author or as an advisor other than "na". *)
Theorem loaded_people_are_named rows db pid :
  init_database rows = Some db →
  in_people db pid ↔ ∃ row, row ∈ rows ∧ names_person row pid.
Proof.
  intros Hdb.
  destruct (init_database_tables _ _ Hdb) as (t & Ht & _ & _ & _ & _ & _ & Hpk & _).
  destruct (load_rows_spec _ _ _ Ht tables_ok_empty) as [_ Hk].
  transitivity (pid ∈ person_id <$> people db).
  - unfold in_people. rewrite list_elem_of_fmap. naive_solver.
  - rewrite Hpk, Hk. simpl. split; [|by right].
    intros [Hn|?]; [by apply elem_of_nil in Hn|done].
Qed.

Lemma filter_none {A} (P : A → Prop) `{∀ x, Decision (P x)} (l : list A) :
  (∀ x, x ∈ l → ¬ P x) → filter P l = [].
Proof.
  induction l as [|y l IH]; intros Hl; [done|].
  rewrite filter_cons, decide_False by (apply Hl; left).
  apply IH. intros x Hx. apply Hl. by right.
Qed.

Lemma filter_unique_key {A} (key : A → list N) (l : list A) k :
  NoDup (key <$> l) → k ∈ key <$> l →
  ∃ x, filter (λ y, key y = k) l = [x].
Proof.
  induction l as [|y l IH]; intros Hnd Hin; [by apply elem_of_nil in Hin|].
  rewrite fmap_cons in Hnd, Hin. apply NoDup_cons in Hnd as [Hy Hnd].
  rewrite filter_cons. case_decide as Hk.
  - exists y. f_equal. apply filter_none.
    intros z Hz Hzk. apply Hy. rewrite Hk, <- Hzk.
    apply list_elem_of_fmap. by exists z.
  - apply elem_of_cons in Hin as [->|Hin]; [done|]. by apply IH.
Qed.

(** The [dissertations] and [advisors] tables after loading: dissertation
    ids are unique and not empty; an advisor row has a non-empty id other
    than "na" and a slot number from 1 to 8, and the join on the
    dissertation id finds exactly one dissertation for it. *)
Theorem loaded_advisor_links rows db :
  init_database rows = Some db →
  NoDup (dissertation_id <$> dissertations db) ∧
  Forall (λ d, dissertation_id d ≠ []) (dissertations db) ∧
  Forall (λ a, advisor_ok a ∧
               ∃ d, filter (λ d, dissertation_id d = adv_dissertation_id a)
                      (dissertations db) = [d]) (advisors db).
Proof.
  intros Hdb.
  destruct (init_database_tables _ _ Hdb)
    as (t & _ & (_ & _ & _ & _ & Hd1 & Hd2 & Ha) & _ & Hd & Had & _).
  rewrite Hd, Had. split; [done|]. split.
  - eapply Forall_impl; [exact Hd2|]. by intros d [? _].
  - eapply Forall_impl; [exact Ha|]. intros a (Hok & Hin & _).
    split; [done|]. by apply filter_unique_key.
Qed.

(** After loading, an author or an advisor that a table row records with a
    name has a row in [people]. *)
Theorem loaded_names_are_people rows db :
  init_database rows = Some db →
  (∀ d, d ∈ dissertations db → author_id d ≠ [] → author_name d ≠ [] →
        in_people db (author_id d)) ∧
  (∀ a, a ∈ advisors db → advisor_name a ≠ [] → in_people db (advisor_id a)).
Proof.
  intros Hdb.
  destruct (init_database_tables _ _ Hdb)
    as (t & _ & (_ & _ & _ & _ & _ & Hd2 & Ha) & _ & Hd & Had & _ & Hpk & _).
  assert (Hin : ∀ k, k ∈ (people_dict t).*1 → in_people db k).
  { intros k Hk. rewrite <- Hpk in Hk.
    apply list_elem_of_fmap in Hk as (p & -> & Hp). by exists p. }
  rewrite Hd, Had. split.
  - intros d Hdin Hid Hname. apply Hin.
    by apply (proj1 (Forall_forall _ _) Hd2 d Hdin).
  - intros a Hain Hname. apply Hin.
    by apply (proj1 (Forall_forall _ _) Ha a Hain).
Qed.

Lemma row_get_defined row key :
  row !! key ≠ Some None → is_Some (row_get row key).
Proof. unfold row_get. by destruct (row !! key) as [[v|]|]. Qed.

Lemma advisor_people_defined row slots people :
  (∀ key, row !! key ≠ Some None) → is_Some (advisor_people row slots people).
Proof.
  intros Hrow. revert people. induction slots as [|i slots IH]; intros people; simpl.
  - by eexists.
  - destruct (row_get_defined row (slot_key "Advisor_ID_" i) (Hrow _)) as [? ->].
    destruct (row_get_defined row (slot_key "Advisor_Name_" i) (Hrow _)) as [? ->].
    simpl. apply IH.
Qed.

Lemma advisor_links_defined row did slots table :
  (∀ key, row !! key ≠ Some None) → is_Some (advisor_links row did slots table).
Proof.
  intros Hrow. revert table. induction slots as [|i slots IH]; intros table; simpl.
  - by eexists.
  - destruct (row_get_defined row (slot_key "Advisor_ID_" i) (Hrow _)) as [? ->].
    destruct (row_get_defined row (slot_key "Advisor_Name_" i) (Hrow _)) as [? ->].
    destruct (row_get_defined row (slot_key "Advisor_Role_" i) (Hrow _)) as [? ->].
    simpl. apply IH.
Qed.

Lemma load_row_defined t row :
  (∀ key, row !! key ≠ Some None) → is_Some (load_row t row).
Proof.
  intros Hrow. unfold load_row.
  destruct (row_get_defined row (u "Author_ID") (Hrow _)) as [? ->].
  destruct (row_get_defined row (u "Author_Name") (Hrow _)) as [? ->].
  destruct (row_get_defined row (u "Years") (Hrow _)) as [? ->].
  destruct (row_get_defined row (u "School_ID") (Hrow _)) as [? ->].
  destruct (row_get_defined row (u "School") (Hrow _)) as [? ->].
  cbn [mbind option_bind].
  match goal with
  | |- context [advisor_people row (seq 1 8) ?p] =>
      destruct (advisor_people_defined row (seq 1 8) p Hrow) as [? ->]
  end.
  destruct (row_get_defined row (u "ID") (Hrow _)) as [did ->].
  cbn [mbind option_bind]. destruct (truthy did); [|by eexists].
  destruct (row_get_defined row (u "Title") (Hrow _)) as [? ->].
  destruct (row_get_defined row (u "Year") (Hrow _)) as [? ->].
  destruct (row_get_defined row (u "Department") (Hrow _)) as [? ->].
  destruct (row_get_defined row (u "Subject_broad") (Hrow _)) as [? ->].
  cbn [mbind option_bind].
  destruct (advisor_links_defined row did (seq 1 8) (advisor_rows t) Hrow) as [? ->].
  by eexists.
Qed.

Lemma advisor_people_None row slots people key :
  row !! key = Some None →
  key ∈ (slot_key "Advisor_ID_" <$> slots) ++ (slot_key "Advisor_Name_" <$> slots) →
  advisor_people row slots people = None.
Proof.
  intros Hkey. assert (Hget : row_get row key = None) by (unfold row_get; by rewrite Hkey).
  revert people. induction slots as [|i slots IH]; intros people Hin.
  { by apply elem_of_nil in Hin. }
  simpl.
  destruct (row_get row (slot_key "Advisor_ID_" i)) eqn:Eid; [|done].
  destruct (row_get row (slot_key "Advisor_Name_" i)) eqn:Ename; [|done].
  simpl. apply IH.
  rewrite !fmap_cons in Hin. rewrite elem_of_app, !elem_of_cons in Hin.
  rewrite elem_of_app. destruct Hin as [[->|?]|[->|?]]; [congruence|by left|congruence|by right].
Qed.

Lemma load_row_None t row key :
  row !! key = Some None → key ∈ always_read → load_row t row = None.
Proof.
  intros Hkey Hin.
  assert (Hget : row_get row key = None) by (unfold row_get; by rewrite Hkey).
  unfold load_row.
  destruct (row_get row (u "Author_ID")) eqn:E1; [|done].
  destruct (row_get row (u "Author_Name")) eqn:E2; [|done].
  destruct (row_get row (u "Years")) eqn:E3; [|done].
  destruct (row_get row (u "School_ID")) eqn:E4; [|done].
  destruct (row_get row (u "School")) eqn:E5; [|done].
  cbn [mbind option_bind].
  match goal with
  | |- context [advisor_people row (seq 1 8) ?p] =>
      destruct (advisor_people row (seq 1 8) p) eqn:E6; [|done]
  end.
  destruct (row_get row (u "ID")) eqn:E7; [|done].
  exfalso. unfold always_read in Hin.
  rewrite elem_of_app, !elem_of_cons in Hin.
  destruct Hin as [[->|[->|[->|[->|[->|[->|Hnil]]]]]]|Hin]; try congruence.
  - by apply elem_of_nil in Hnil.
  - match type of E6 with
    | advisor_people _ _ ?p = _ =>
        rewrite (advisor_people_None row (seq 1 8) p key Hkey Hin) in E6
    end. done.
Qed.

(** Loading succeeds when every cell of every row is a string, and fails
    as soon as one row has [None] under a column that the loop always
    reads (a line with too few fields). *)
Theorem loading_succeeds_on_full_rows rows :
  ((∀ row, row ∈ rows → ∀ key, row !! key ≠ Some None) →
   is_Some (init_database rows)) ∧
  (∀ row key, row ∈ rows → row !! key = Some None → key ∈ always_read →
   init_database rows = None).
Proof.
  unfold init_database. split.
  - intros Hrows.
    assert (Hload : ∀ t, is_Some (load_rows t rows)).
    { induction rows as [|row rows IH]; intros t; simpl; [by eexists|].
      destruct (load_row_defined t row) as [t' ->].
      - apply Hrows. left.
      - simpl. apply IH. intros r Hr. apply Hrows. by right. }
    destruct (Hload (mkTables [] [] [] [])) as [t ->]. by eexists.
  - intros row key Hrow Hkey Hin.
    assert (Hload : ∀ t, load_rows t rows = None).
    { induction rows as [|r rows IH]; intros t; [by apply elem_of_nil in Hrow|].
      simpl. apply elem_of_cons in Hrow as [<-|Hrow].
      - by rewrite (load_row_None t row key).
      - destruct (load_row t r); [|done]. simpl. by apply IH. }
    by rewrite Hload.
Qed.

End IngestionFacts.

(** ** Tokens of a name query *)

Section TokenFacts.
Context {ucd : UnicodeData}.

Lemma lstrip_no_space (t : list N) :
  Forall (λ c, isspace c = false) t → lstrip t = t.
Proof. destruct 1 as [|c t Hc _]; [done|]. by apply lstrip_fixed. Qed.

Lemma strip_no_space (t : list N) :
  Forall (λ c, isspace c = false) t → strip t = t.
Proof.
  intros Ht. unfold strip, rstrip. rewrite (lstrip_no_space t Ht).
  rewrite lstrip_no_space; [apply reverse_involutive|].
  by apply Forall_reverse.
Qed.

Lemma split_from_tokens (word s : list N) :
  Forall (λ c, isspace c = false) word →
  Forall (λ t, t ≠ [] ∧ Forall (λ c, isspace c = false) t) (split_from word s).
Proof.
  revert word. induction s as [|c s IH]; intros word Hword; simpl.
  - destruct (truthy word) eqn:E; [|done].
    apply Forall_singleton. split; [by apply truthy_nonempty|done].
  - destruct (isspace c) eqn:Ec.
    + destruct (truthy word) eqn:E; [|by apply IH].
      apply Forall_cons. split; [|by apply IH].
      split; [by apply truthy_nonempty|done].
    + apply IH, Forall_app. split; [done|]. by apply Forall_singleton.
Qed.

Lemma split_from_nonempty (word s : list N) : word ≠ [] → split_from word s ≠ [].
Proof.
  revert word. induction s as [|c s IH]; intros word Hword; simpl.
  - apply truthy_nonempty in Hword. by rewrite Hword.
  - destruct (isspace c).
    + apply truthy_nonempty in Hword. by rewrite Hword.
    + apply IH. by destruct word.
Qed.

Lemma name_parts_split (q : list N) : name_parts_of q = split q.
Proof.
  unfold name_parts_of, split.
  pose proof (split_from_tokens [] q (Forall_nil_2 _)) as Htok.
  induction Htok as [|t l [Hne Hns] _ IH]; [done|].
  rewrite filter_cons, (strip_no_space t Hns).
  rewrite decide_True by by apply truthy_nonempty.
  rewrite fmap_cons, (strip_no_space t Hns). f_equal. exact IH.
Qed.

Lemma strip_head (s : list N) :
  strip s = [] ∨ ∃ c r, strip s = c :: r ∧ isspace c = false.
Proof.
  unfold strip. destruct (rstrip_prefix (lstrip s)) as [post Hpost].
  destruct (rstrip (lstrip s)) as [|c r] eqn:E; [by left|]. right.
  destruct (lstrip_head s) as [Hs|(c' & s' & Hs & Hc)]; rewrite Hs in Hpost; [done|].
  injection Hpost as -> _. by exists c, r.
Qed.

Lemma strip_tokens (s : list N) : strip s ≠ [] → name_parts_of (strip s) ≠ [].
Proof.
  intros Hne. rewrite name_parts_split.
  destruct (strip_head s) as [?|(c & r & -> & Hc)]; [done|].
  unfold split. simpl. rewrite Hc. by apply split_from_nonempty.
Qed.

Lemma normalize_tokens (x : list N) :
  normalize_search_text x ≠ [] → name_parts_of (normalize_search_text x) ≠ [].
Proof.
  unfold normalize_search_text. destruct (truthy x); [|done]. apply strip_tokens.
Qed.

(** The name parts of a query are the pieces that [split] cuts: not one is
    empty, not one holds white space (so the two [strip] calls of the
    comprehension change nothing), and each is a run of consecutive
    characters of the query.  A normalized query that is not empty has at
    least one part. *)
Theorem name_parts_are_words (name_query : list N) :
  let q := normalize_search_text name_query in
  name_parts_of q = split q ∧
  Forall (λ t, t ≠ [] ∧ Forall (λ c, isspace c = false) t ∧ substring t q)
    (name_parts_of q) ∧
  (name_parts_of q = [] ↔ q = []).
Proof.
  intros q. split; [apply name_parts_split|]. split.
  - apply Forall_forall. intros t Ht.
    pose proof (name_parts_substring _ _ Ht) as Hsub.
    rewrite name_parts_split in Ht.
    destruct (proj1 (Forall_forall _ _) (split_from_tokens [] q (Forall_nil_2 _)) t Ht)
      as [? ?].
    done.
  - split.
    + intros Hparts. destruct (decide (q = [])) as [|Hq]; [done|].
      by apply normalize_tokens in Hq.
    + by intros ->.
Qed.

End TokenFacts.

(** ** Finding what was loaded *)

Section FindingFacts.
Context {ucd : UnicodeData} {limits : SqliteLimits} {order : SetOrder}.

Lemma search_name_value db name_search school_search :
  strip name_search ≠ [] →
  (search db name_search school_search).2
  = match (searchByName db (strip name_search)).2 with
    | Some results => render_results results (strip name_search) (strip school_search)
    | None => internal_server_error
    end.
Proof.
  intros Hn. apply truthy_nonempty in Hn. unfold search. rewrite Hn.
  cbn [truthy negb andb]. unfold mbind, IO_bind, connect. cbn [fst snd].
  by destruct (searchByName db (strip name_search)).2.
Qed.

(** Whoever was loaded is found under their own name: a search for the
    name as stored returns the person, unless the normalized name is
    empty, holds U+0000, or makes a pattern longer than SQLite allows. *)
Theorem loaded_person_found_by_name rows db p school_search :
  init_database rows = Some db → p ∈ people db → name_normalized p ≠ [] →
  0%N ∉ name_normalized p →
  (utf8_length (contains_pattern (name_normalized p)) ≤ like_pattern_length)%N →
  ∃ results,
    (search db (name p) school_search).2
    = render_results results (name p) (strip school_search) ∧
    result_of db p ∈ results.
Proof.
  intros Hdb Hp Hnorm Hplain Hlen.
  destruct (loaded_well_formed _ _ Hdb) as (_ & Hok & _).
  destruct (proj1 (Forall_forall _ _) Hok p Hp) as (_ & Hname & Hstrip & Hnn).
  rewrite search_name_value by by rewrite Hstrip.
  rewrite Hstrip, searchByName_value.
  assert (Hrows : ∃ rows', name_rows db (name p) = Some rows' ∧ p ∈ rows').
  { unfold name_rows. rewrite <- Hnn.
    rewrite decide_False by (rewrite Hnn; apply normalize_tokens; by rewrite <- Hnn).
    destruct (statement_refused _).
    - destruct (people_like_within db [contains_pattern (name_normalized p)])
        as (rows' & -> & Hall).
      { intros pat Hpat. by apply list_elem_of_singleton in Hpat as ->. }
      exists rows'. split; [done|]. apply Hall; [done|].
      intros pat Hpat. apply list_elem_of_singleton in Hpat as ->.
      by apply like_substring; [apply substring_refl|].
    - destruct (people_like_within db
                  (contains_pattern <$> name_parts_of (name_normalized p)))
        as (rows' & -> & Hall).
      { intros pat Hpat. apply list_elem_of_fmap in Hpat as (t & -> & Ht).
        etrans; [|exact Hlen]. by apply utf8_length_substring, name_parts_substring. }
      exists rows'. split; [done|]. apply Hall; [done|].
      intros pat Hpat. apply list_elem_of_fmap in Hpat as (t & -> & Ht).
      by apply like_substring; [apply name_parts_substring|]. }
  destruct Hrows as (rows' & -> & Hin). eexists. split; [done|].
  apply list_elem_of_fmap. by exists p.
Qed.

(** A school that was loaded is not reported as not found: a search for
    its name as stored takes the first school of the table whose
    normalized name matches it, unless the name makes a pattern longer
    than SQLite allows. *)
Theorem loaded_school_found rows db s name_search :
  init_database rows = Some db → s ∈ schools db → strip name_search = [] →
  (utf8_length (contains_pattern (school_name_normalized s)) ≤ like_pattern_length)%N →
  ∃ s' results,
    find_school db (school_name_normalized s) = Some (Some s') ∧
    s' ∈ schools db ∧
    (search db name_search (school_name s)).2
    = render_results results [] (school_name s).
Proof.
  intros Hdb Hs Hn Hlen.
  destruct (loaded_well_formed _ _ Hdb) as (_ & _ & _ & Hok).
  destruct (proj1 (Forall_forall _ _) Hok s Hs) as (_ & Hname & Hstrip & Hnn).
  rewrite search_school_value by by rewrite ?Hstrip.
  rewrite searchBySchool_value, Hstrip, <- Hnn.
  destruct (find_school_some db (school_name_normalized s) s Hlen Hs (like_own_text _))
    as [s' E].
  destruct (find_school_found _ _ _ E) as (earlier & later & Hsplit & _).
  exists s'. eexists. rewrite E. split; [done|]. split; [|done].
  rewrite Hsplit. apply elem_of_app. right. left.
Qed.

End FindingFacts.

Section LoadedSamples.
#[local] Existing Instance sample_unicode.
#[local] Existing Instance sample_limits.
#[local] Existing Instance sample_order.

Example sample_csv_loaded : init_database sample_csv = Some sample_loaded.
Proof. by vm_compute. Qed.

Lemma loaded_people_and_schools_witness :
  init_database sample_csv = Some sample_loaded ∧
  NoDup (person_id <$> people sample_loaded) ∧ Forall person_ok (people sample_loaded) ∧
  NoDup (sch_school_id <$> schools sample_loaded) ∧
  Forall school_ok (schools sample_loaded).
Proof.
  assert (H : init_database sample_csv = Some sample_loaded) by by vm_compute.
  split; [done|]. exact (loaded_people_and_schools sample_csv sample_loaded H).
Defined.

Lemma loaded_people_are_named_witness :
  init_database sample_csv = Some sample_loaded ∧
  (in_people sample_loaded (u "p9") ↔
   ∃ row, row ∈ sample_csv ∧ names_person row (u "p9")).
Proof.
  assert (H : init_database sample_csv = Some sample_loaded) by by vm_compute.
  split; [done|]. exact (loaded_people_are_named sample_csv sample_loaded (u "p9") H).
Defined.

Lemma loaded_advisor_links_witness :
  init_database sample_csv = Some sample_loaded ∧
  NoDup (dissertation_id <$> dissertations sample_loaded) ∧
  Forall (λ d, dissertation_id d ≠ []) (dissertations sample_loaded) ∧
  Forall (λ a, advisor_ok a ∧
               ∃ d, filter (λ d, dissertation_id d = adv_dissertation_id a)
                      (dissertations sample_loaded) = [d]) (advisors sample_loaded).
Proof.
  assert (H : init_database sample_csv = Some sample_loaded) by by vm_compute.
  split; [done|]. exact (loaded_advisor_links sample_csv sample_loaded H).
Defined.

Lemma loaded_names_are_people_witness :
  init_database sample_csv = Some sample_loaded ∧
  (∀ d, d ∈ dissertations sample_loaded → author_id d ≠ [] → author_name d ≠ [] →
        in_people sample_loaded (author_id d)) ∧
  (∀ a, a ∈ advisors sample_loaded → advisor_name a ≠ [] →
        in_people sample_loaded (advisor_id a)).
Proof.
  assert (H : init_database sample_csv = Some sample_loaded) by by vm_compute.
  split; [done|]. exact (loaded_names_are_people sample_csv sample_loaded H).
Defined.

Lemma loading_succeeds_on_full_rows_witness :
  (∀ row, row ∈ sample_csv → ∀ key, row !! key ≠ Some None) ∧
  is_Some (init_database sample_csv) ∧
  (line_short ∈ [line_numbers; line_short] ∧ line_short !! u "ID" = Some None ∧
   u "ID" ∈ always_read) ∧
  init_database [line_numbers; line_short] = None.
Proof.
  assert (Hfull : ∀ row, row ∈ sample_csv → ∀ key, row !! key ≠ Some None).
  { intros row Hrow key. unfold sample_csv in Hrow.
    apply elem_of_cons in Hrow as [->|Hrow];
      [|apply list_elem_of_singleton in Hrow as ->].
    - unfold line_numbers. intros Hk. apply elem_of_list_to_map_2 in Hk.
      match type of Hk with
      | _ ∈ ?l =>
          assert (HF : Forall (λ kv : list N * option (list N), kv.2 ≠ None) l)
            by by_evaluation
      end.
      exact (proj1 (Forall_forall _ _) HF _ Hk eq_refl).
    - unfold line_repeated. intros Hk. apply elem_of_list_to_map_2 in Hk.
      match type of Hk with
      | _ ∈ ?l =>
          assert (HF : Forall (λ kv : list N * option (list N), kv.2 ≠ None) l)
            by by_evaluation
      end.
      exact (proj1 (Forall_forall _ _) HF _ Hk eq_refl). }
  assert (Hin : line_short ∈ [line_numbers; line_short]) by (right; left).
  assert (Hnone : line_short !! u "ID" = Some None) by by vm_compute.
  assert (Hread : u "ID" ∈ always_read) by by_evaluation.
  split; [done|]. split.
  - exact (proj1 (loading_succeeds_on_full_rows sample_csv) Hfull).
  - split; [done|].
    exact (proj2 (loading_succeeds_on_full_rows [line_numbers; line_short])
             line_short (u "ID") Hin Hnone Hread).
Defined.

Lemma loaded_person_found_by_name_witness :
  (init_database sample_csv = Some sample_loaded ∧ numbers ∈ people sample_loaded ∧
   name_normalized numbers ≠ [] ∧ (0%N ∉ name_normalized numbers) ∧
   (utf8_length (contains_pattern (name_normalized numbers)) ≤ like_pattern_length)%N) ∧
  ∃ results,
    (search sample_loaded (name numbers) (u "mit")).2
    = render_results results (name numbers) (strip (u "mit")) ∧
    result_of sample_loaded numbers ∈ results.
Proof.
  assert (H : init_database sample_csv = Some sample_loaded) by by vm_compute.
  assert (Hin : numbers ∈ people sample_loaded) by left.
  assert (Hne : name_normalized numbers ≠ []) by by_evaluation.
  assert (Hplain : 0%N ∉ name_normalized numbers) by by_evaluation.
  assert (Hlen : (utf8_length (contains_pattern (name_normalized numbers))
                  ≤ like_pattern_length)%N) by by_evaluation.
  split; [exact (conj H (conj Hin (conj Hne (conj Hplain Hlen))))|].
  exact (loaded_person_found_by_name sample_csv sample_loaded numbers (u "mit")
           H Hin Hne Hplain Hlen).
Defined.

Lemma loaded_school_found_witness :
  (init_database sample_csv = Some sample_loaded ∧
   mkSchool (u "s1") (u "Berkeley") (u "berkeley") ∈ schools sample_loaded ∧
   strip [] = [] ∧
   (utf8_length (contains_pattern (u "berkeley")) ≤ like_pattern_length)%N) ∧
  ∃ s' results,
    find_school sample_loaded (u "berkeley") = Some (Some s') ∧
    s' ∈ schools sample_loaded ∧
    (search sample_loaded [] (u "Berkeley")).2 = render_results results [] (u "Berkeley").
Proof.
  assert (H : init_database sample_csv = Some sample_loaded) by by vm_compute.
  assert (Hin : mkSchool (u "s1") (u "Berkeley") (u "berkeley") ∈ schools sample_loaded)
    by left.
  assert (Hn : strip [] = []) by by_evaluation.
  assert (Hlen : (utf8_length (contains_pattern (u "berkeley")) ≤ like_pattern_length)%N)
    by by_evaluation.
  split; [exact (conj H (conj Hin (conj Hn Hlen)))|].
  exact (loaded_school_found sample_csv sample_loaded _ [] H Hin Hn Hlen).
Defined.

End LoadedSamples.

(** ** The corrections log *)

Section LogFacts.
Context {ucd : UnicodeData}.
Variable dict_str : list (list N * list N) → list N.

Lemma handle_post_log (log : option (list (list (list N)))) (r : Post) :
  (handle_post dict_str log r).1
  = if post_signed r
    then Some ((if log is Some rows then rows else [log_header]) ++ [post_row dict_str r])
    else log.
Proof.
  destruct r as [now pid form|now uuid form]; simpl;
    unfold edit_person_post, add_person;
    destruct (truthy (form_get form (u "user_name"))); simpl; try done;
    unfold log_correction; by destruct log.
Qed.

(** The log after any series of POST requests to [/edit] and [/add]: the
    rows that were there stay in front, unchanged; every request that
    carries a user name adds one row, in order; the header row is written
    once, first, and only if the file did not exist; requests without a
    user name leave no trace. *)
Theorem corrections_log_after_posts (log : option (list (list (list N))))
    (posts : list Post) :
  handle_posts dict_str log posts
  = match log with
    | Some rows =>
        Some (rows ++ (post_row dict_str <$> filter (λ r, post_signed r = true) posts))
    | None =>
        match filter (λ r, post_signed r = true) posts with
        | [] => None
        | accepted => Some (log_header :: (post_row dict_str <$> accepted))
        end
    end.
Proof.
  unfold handle_posts.
  assert (Hsome : ∀ posts rows,
    foldl (λ log r, (handle_post dict_str log r).1) (Some rows) posts
    = Some (rows ++ (post_row dict_str <$> filter (λ r, post_signed r = true) posts))).
  { clear. intros posts. induction posts as [|r posts IH]; intros rows; simpl.
    - by rewrite app_nil_r.
    - rewrite handle_post_log, filter_cons. destruct (post_signed r) eqn:E.
      + rewrite IH, decide_True by done. by rewrite <- (assoc_L (++)).
      + rewrite IH, decide_False by (by intros ?). done. }
  destruct log as [rows|]; [apply Hsome|].
  induction posts as [|r posts IH]; simpl; [done|].
  rewrite handle_post_log, filter_cons. destruct (post_signed r) eqn:E.
  - rewrite Hsome, decide_True by done. done.
  - rewrite IH, decide_False by (by intros ?). done.
Qed.

(** A request without a user name is answered with status 400 and leaves
    the log as it was; a request with one is answered with the redirect
    or the confirmation, and from then on the log file exists, so the
    download no longer answers 404. *)
Theorem unsigned_post_rejected (log : option (list (list (list N)))) (r : Post) :
  (post_signed r = false →
   handle_post dict_str log r = (log, reply_text (u "Your name is required") 400)) ∧
  (post_signed r = true →
   (∃ rows, (handle_post dict_str log r).1 = Some rows ∧
            download_corrections (handle_post dict_str log r).1 = inr rows) ∧
   ∀ body status, (handle_post dict_str log r).2 ≠ reply_text body status).
Proof.
  split; intros Hsigned.
  - destruct r as [now pid form|now uuid form]; simpl in *;
      unfold edit_person_post, add_person; by rewrite Hsigned.
  - split.
    + rewrite handle_post_log, Hsigned. by eexists.
    + intros body status.
      destruct r as [now pid form|now uuid form]; simpl in *;
        unfold edit_person_post, add_person; by rewrite Hsigned.
Qed.

End LogFacts.

(** ** Counts and depth *)

Section CountFacts.
Variable db : Store.

(** The two numbers of the person page, whenever the traversal returns:
    the depth never exceeds the total, the total is at least the number of
    direct students, and both are 0 exactly when there is no direct
    student. *)
Theorem depth_within_total (frames : nat) (person_id : list N) (total depth : nat) :
  descendantStats_within frames db person_id = Some (total, depth) →
  depth ≤ total ∧ length (direct_students db person_id) ≤ total ∧
  (total = 0 ↔ direct_students db person_id = []) ∧
  (depth = 0 ↔ direct_students db person_id = []).
Proof.
  unfold descendantStats_within. intros Hstats.
  destruct (get_descendants_count frames db person_id ∅) as [[[t d] v']|] eqn:E;
    [|done].
  injection Hstats as -> ->.
  assert (Hno : direct_students db person_id = [] → total = 0 ∧ depth = 0).
  { intros Hnil. destruct frames as [|fuel]; [done|]. simpl in E.
    rewrite decide_False, Hnil in E by set_solver. by injection E as <- <- _. }
  apply (get_descendants_count_bounds db) in E as [Hdt Hrest]. simpl in *.
  destruct Hrest as [Hlen Hdepth]; [set_solver|].
  split; [done|]. split; [done|]. split; split.
  - intros ->. destruct (direct_students db person_id); [done|simpl in Hlen; lia].
  - intros Hnil. by apply Hno.
  - intros ->. destruct (direct_students db person_id) as [|s l] eqn:E; [done|].
    assert (1 ≤ 0) by by apply Hdepth. lia.
  - intros Hnil. by apply Hno.
Qed.

End CountFacts.

(** ** Pages and lists *)

Lemma distinct_from_NoDup `{EqDecision A} (seen l : list A) :
  NoDup (distinct_from seen l) ∧ ∀ x, x ∈ distinct_from seen l → x ∉ seen.
Proof.
  revert seen. induction l as [|y l IH]; intros seen; simpl.
  - split; [apply NoDup_nil_2|]. intros x Hx. by apply elem_of_nil in Hx.
  - case_decide as Hy; [apply IH|].
    destruct (IH (y :: seen)) as [Hnd Hnot]. split.
    + apply NoDup_cons. split; [|done]. intros Hin. apply (Hnot y Hin). left.
    + intros x Hx. apply elem_of_cons in Hx as [->|Hx]; [done|].
      intros Hs. apply (Hnot x Hx). by right.
Qed.

Lemma distinct_NoDup `{EqDecision A} (l : list A) : NoDup (distinct l).
Proof. apply distinct_from_NoDup. Qed.

(** The list of [/api/schools] is in order, names no school twice, and
    holds exactly the names of the [schools] table. *)
Theorem schools_listed_once_in_order (db : Store) :
  Sorted str_le (get_schools db) ∧ NoDup (get_schools db) ∧
  ∀ n, n ∈ get_schools db ↔ ∃ s, s ∈ schools db ∧ school_name s = n.
Proof.
  unfold get_schools. split; [apply (Sorted_merge_sort _)|]. split.
  - rewrite merge_sort_Permutation. apply distinct_NoDup.
  - intros n. rewrite merge_sort_Permutation, distinct_elem, list_elem_of_fmap.
    naive_solver.
Qed.




Lemma or_else_nonempty (x fallback : list N) : fallback ≠ [] → or_else x fallback ≠ [].
Proof.
  intros Hf. unfold or_else. destruct (truthy x) eqn:E; [|done].
  by apply truthy_nonempty.
Qed.

#[global] Instance slot_le_total : Total slot_le.
Proof. intros a b. unfold slot_le. lia. Qed.

(** What the person page shows is never blank where the code puts a
    default: the years, the five dissertation fields, the name and role
    of every advisor, the year and school of every student.  The advisors
    are the advisor rows of the dissertation shown, by slot number; the
    number of direct students is the length of the student list; the two
    statistics are those of [get_descendants_count] and the affiliations
    those of [get_person_affiliations]. *)
Theorem person_page_fields (frames : nat) (db : Store) (person_id : list N)
    (page : PersonPage) :
  person_detail frames db person_id = Some (inr page) →
  pg_person_id page = person_id ∧ pg_years page ≠ [] ∧
  (∀ d, pg_dissertation page = Some d →
     pd_title d ≠ [] ∧ pd_year d ≠ [] ∧ pd_school d ≠ [] ∧
     pd_department d ≠ [] ∧ pd_subject d ≠ [] ∧
     Forall (λ a, pa_name a ≠ [] ∧ pa_role a ≠ []) (pd_advisors d) ∧
     ∃ rows, pd_advisors d = page_advisor <$> rows ∧ Sorted slot_le rows ∧
             rows ≡ₚ filter (λ a, adv_dissertation_id a = pd_dissertation_id d)
                       (advisors db)) ∧
  Forall (λ s, ps_year s ≠ [] ∧ ps_school s ≠ []) (pg_students page) ∧
  pg_direct_students page = length (pg_students page) ∧
  descendantStats_within frames db person_id
  = Some (pg_total_descendants page, pg_max_generations page) ∧
  pg_affiliations page = affiliationsOf db person_id.
Proof.
  unfold person_detail. destruct (find_person db person_id) as [p|]; [|done].
  destruct (descendantStats_within frames db person_id) as [[total depth]|]; [|done].
  simpl. intros [= <-]. simpl.
  split; [done|]. split; [by apply or_else_nonempty|]. split; [|split].
  - intros d Hd. destruct (find_dissertation db person_id) as [d0|]; [|done].
    injection Hd as <-. unfold page_dissertation. simpl.
    do 5 (split; [by apply or_else_nonempty|]). split.
    + apply Forall_fmap, Forall_forall. intros a _. simpl.
      split; by apply or_else_nonempty.
    + exists (advisors_of db (dissertation_id d0)). split; [done|].
      unfold advisors_of. split; [apply (Sorted_merge_sort _)|].
      apply merge_sort_Permutation.
  - apply Forall_fmap, Forall_forall. intros r _. simpl.
    split; by apply or_else_nonempty.
  - done.
Qed.

Lemma direct_students_le_total frames db pid total depth :
  descendantStats_within frames db pid = Some (total, depth) →
  length (direct_students db pid) ≤ total.
Proof.
  unfold descendantStats_within. intros Hstats.
  destruct (get_descendants_count frames db pid ∅) as [[[t d] v']|] eqn:E; [|done].
  injection Hstats as -> ->.
  apply get_descendants_count_bounds in E as [_ Hrest]. simpl in *.
  apply Hrest. set_solver.
Qed.

Lemma student_rows_of_ids db pid sid :
  sid ∈ (λ r : list N * list N * list N * list N, r.1.1.1) <$> student_rows_of db pid ↔
  ∃ d, d ∈ advised_dissertations db pid ∧ author_id d = sid ∧ in_people db sid.
Proof.
  unfold student_rows_of. rewrite list_elem_of_fmap. split.
  - intros (r & -> & Hr). rewrite merge_sort_Permutation, distinct_elem in Hr.
    apply list_elem_of_bind in Hr as (d & Hr & Hd).
    apply list_elem_of_fmap in Hr as (p & -> & Hp).
    apply list_elem_of_filter in Hp as [Hid Hp].
    exists d. split; [done|]. split; [done|]. by exists p.
  - intros (d & Hd & <- & p & Hp & Hid).
    exists (author_id d, name p, year d, school d). split; [done|].
    rewrite merge_sort_Permutation, distinct_elem.
    apply list_elem_of_bind. exists d. split; [|done].
    apply list_elem_of_fmap. exists p. split; [done|]. by apply list_elem_of_filter.
Qed.

(** The students listed on the person page are the direct students that
    [get_descendants_count] starts from, as far as they have a row in
    [people]; and the total of descendants shown is at least the number
    of direct students. *)
Theorem page_students_are_direct_students (frames : nat) (db : Store)
    (person_id : list N) (page : PersonPage) :
  person_detail frames db person_id = Some (inr page) →
  (∀ sid, sid ≠ [] →
     sid ∈ ps_student_id <$> pg_students page ↔
     sid ∈ direct_students db person_id ∧ in_people db sid) ∧
  length (direct_students db person_id) ≤ pg_total_descendants page.
Proof.
  unfold person_detail. destruct (find_person db person_id) as [p|]; [|done].
  destruct (descendantStats_within frames db person_id) as [[total depth]|] eqn:E;
    [|done].
  simpl. intros [= <-]. simpl. split; [|by eapply direct_students_le_total].
  intros sid Hsid. rewrite <- list_fmap_compose.
  change (ps_student_id ∘ page_student)
    with (λ r : list N * list N * list N * list N, r.1.1.1).
  rewrite student_rows_of_ids. unfold direct_students.
  rewrite list_elem_of_filter, distinct_elem, list_elem_of_fmap, truthy_nonempty.
  naive_solver.
Qed.

(** ** Samples of the routes *)

Section RouteSamples.
#[local] Existing Instance sample_unicode.

Lemma unsigned_post_rejected_witness :
  (post_signed unsigned_post = false ∧ post_signed signed_post = true) ∧
  handle_post flat_dict_str None unsigned_post
  = (None, reply_text (u "Your name is required") 400) ∧
  (∃ rows, (handle_post flat_dict_str None signed_post).1 = Some rows ∧
           download_corrections (handle_post flat_dict_str None signed_post).1
           = inr rows) ∧
  ∀ body status, (handle_post flat_dict_str None signed_post).2 ≠ reply_text body status.
Proof.
  assert (H1 : post_signed unsigned_post = false) by by vm_compute.
  assert (H2 : post_signed signed_post = true) by by vm_compute.
  split; [exact (conj H1 H2)|]. split.
  - exact (proj1 (unsigned_post_rejected flat_dict_str None unsigned_post) H1).
  - exact (proj2 (unsigned_post_rejected flat_dict_str None signed_post) H2).
Defined.

Lemma depth_within_total_witness :
  descendantStats_within 1000 lattice (u "A") = Some (4, 2) ∧
  2 ≤ 4 ∧ length (direct_students lattice (u "A")) ≤ 4 ∧
  (4 = 0 ↔ direct_students lattice (u "A") = []) ∧
  (2 = 0 ↔ direct_students lattice (u "A") = []).
Proof.
  assert (H : descendantStats_within 1000 lattice (u "A") = Some (4, 2)) by by vm_compute.
  split; [exact H|].
  exact (depth_within_total lattice 1000 (u "A") 4 2 H).
Defined.


Lemma person_page_fields_witness :
  ∃ page,
    person_detail 1000 campus (u "P") = Some (inr page) ∧
    pg_person_id page = u "P" ∧ pg_years page ≠ [] ∧
    (∀ d, pg_dissertation page = Some d →
       pd_title d ≠ [] ∧ pd_year d ≠ [] ∧ pd_school d ≠ [] ∧
       pd_department d ≠ [] ∧ pd_subject d ≠ [] ∧
       Forall (λ a, pa_name a ≠ [] ∧ pa_role a ≠ []) (pd_advisors d) ∧
       ∃ rows, pd_advisors d = page_advisor <$> rows ∧ Sorted slot_le rows ∧
               rows ≡ₚ filter (λ a, adv_dissertation_id a = pd_dissertation_id d)
                         (advisors campus)) ∧
    Forall (λ s, ps_year s ≠ [] ∧ ps_school s ≠ []) (pg_students page) ∧
    pg_direct_students page = length (pg_students page) ∧
    descendantStats_within 1000 campus (u "P")
    = Some (pg_total_descendants page, pg_max_generations page) ∧
    pg_affiliations page = affiliationsOf campus (u "P").
Proof.
  assert (H : ∃ page, person_detail 1000 campus (u "P") = Some (inr page))
    by (eexists; by vm_compute).
  destruct H as [page Hpage]. exists page. split; [exact Hpage|].
  exact (person_page_fields 1000 campus (u "P") page Hpage).
Defined.

Lemma page_students_are_direct_students_witness :
  ∃ page,
    person_detail 1000 campus (u "P") = Some (inr page) ∧
    (∀ sid, sid ≠ [] →
       sid ∈ ps_student_id <$> pg_students page ↔
       sid ∈ direct_students campus (u "P") ∧ in_people campus sid) ∧
    length (direct_students campus (u "P")) ≤ pg_total_descendants page.
Proof.
  assert (H : ∃ page, person_detail 1000 campus (u "P") = Some (inr page))
    by (eexists; by vm_compute).
  destruct H as [page Hpage]. exists page. split; [exact Hpage|].
  exact (page_students_are_direct_students 1000 campus (u "P") page Hpage).
Defined.

End RouteSamples.
